(** * Hill climbing with random restarts for Wi-Fi placement

    A shallow embedding of [src/Hill_Climbing.py] (class
    [HillClimbingWiFiOptimizer]) and the properties of its search core:
    the objective, the neighbour generator, the single-trajectory climber
    and the restart controller.

    Python integers are unbounded, so they are [Z].  A position is a pair
    of integers, a placement a list of positions.  Exceptions are carried
    by the [result] type; the pseudo-random generator is a tape of raw
    draws threaded through the code that consumes it. *)

From stdpp Require Import base numbers list sorting.

Local Open Scope Z_scope.

(** ** Exceptions and the result monad *)

(** The exceptions the modelled methods can raise. *)
Inductive exn : Type :=
| ValueError
| ZeroDivisionError
| TypeError.

(** Outcome of a call: a value, a raised exception, or [OutOfFuel] when the
    model of a [while] loop used up its fuel (never the case for the fuel
    [hill_climbing] supplies, see [hill_climbing_loop_fuel]). *)
Inductive result (A : Type) : Type :=
| Ok (a : A)
| Raise (e : exn)
| OutOfFuel.

Arguments Ok {A} a.
Arguments Raise {A} e.
Arguments OutOfFuel {A}.

#[global] Instance result_ret : MRet result := λ A a, Ok a.
#[global] Instance result_bind : MBind result := λ A B f m,
  match m with
  | Ok a => f a
  | Raise e => Raise e
  | OutOfFuel => OutOfFuel
  end.

(** [for x in xs: s = body(x, s)], stopping at the first exception. *)
Fixpoint for_each {S X : Type} (body : X → S → result S) (xs : list X) (s : S)
  : result S :=
  match xs with
  | [] => mret s
  | x :: xs' => s' ← body x s; for_each body xs' s'
  end.

(** ** Python built-ins *)

(** [min(iterable)]: [ValueError] on an empty iterable. *)
Definition py_min (l : list Z) : result Z :=
  match l with
  | [] => Raise ValueError
  | x :: xs => Ok (foldl Z.min x xs)
  end.

(** [sum(iterable)]. *)
Definition py_sum (l : list Z) : Z := foldl Z.add 0 l.

(** [max(iterable, key=key, default=default)]: the running maximum is
    replaced only by an item whose key is strictly greater, so the first of
    several maximal items is the one returned. *)
Definition py_max {A : Type} (key : A → Z) (default : A) (l : list A) : A :=
  match l with
  | [] => default
  | x :: xs => foldl (λ best item, if key best <? key item then item else best) x xs
  end.

(** [len(set(l)) == len(l)]. *)
Definition all_distinct `{EqDecision A} (l : list A) : bool :=
  (length (remove_dups l) =? length l)%nat.

(** ** The pseudo-random generator *)

(** The generator state is the tape of raw draws still to come. *)
Definition rng : Type := nat → Z.

(** [random.randint(a, b)]: [ValueError] on an empty range, otherwise a
    value of [a..b] and the advanced generator. *)
Definition randint (a b : Z) (g : rng) : result (Z * rng) :=
  if b <? a then Raise ValueError
  else Ok (a + g 0%nat `mod` (b - a + 1), λ n, g (S n)).

(** ** Data model *)

Definition pos : Type := Z * Z.

(** The attributes of a [HillClimbingWiFiOptimizer] instance. *)
Record optimizer : Type := {
  grid_size : Z;
  num_computers : Z;
  num_wifi : Z;
  computers : list pos
}.

(** The dictionary [hill_climbing] returns.  The loop variables
    [current_wifi], [current_score], [iterations] and [improvements] are
    carried in the same record while the loop runs. *)
Record Dict : Type := {
  wifi_positions : list pos;
  score : Z;
  iterations : Z;
  improvements : Z
}.

(** ** Objective *)

Definition manhattan_distance (pos1 pos2 : pos) : Z :=
  Z.abs (pos1.1 - pos2.1) + Z.abs (pos1.2 - pos2.2).

(** [calculate_objective]: for each computer the distance to the nearest
    Wi-Fi, summed and negated.  [min] raises on an empty placement as soon
    as there is a computer to evaluate. *)
Definition calculate_objective (self : optimizer) (wifi_positions : list pos)
  : result Z :=
  nearest ← mapM (λ computer,
                    py_min (manhattan_distance computer <$> wifi_positions))
                 (computers self);
  mret (- py_sum nearest).

(** ** Neighbour generator *)

Definition directions : list (Z * Z) := [(-1, 0); (1, 0); (0, -1); (0, 1)].

(** The body of the inner loop of [get_neighbors] for Wi-Fi [i] at [(x, y)]
    and direction [(dx, dy)]: the placement to append, if any. *)
Definition move (self : optimizer) (wifi_positions : list pos) (i : nat)
    (xy : pos) (d : Z * Z) : option (list pos) :=
  let new_x := xy.1 + d.1 in
  let new_y := xy.2 + d.2 in
  if (0 <=? new_x) && (new_x <? grid_size self)
     && (0 <=? new_y) && (new_y <? grid_size self) then
    let new_pos := (new_x, new_y) in
    let new_wifi_positions := <[i := new_pos]> wifi_positions in
    if all_distinct new_wifi_positions then Some new_wifi_positions else None
  else None.

(** [get_neighbors]: Wi-Fi by Wi-Fi in list order, the four directions in
    the order of [directions]. *)
Definition get_neighbors (self : optimizer) (wifi_positions : list pos)
  : list (list pos) :=
  mjoin (imap (λ i xy, omap (move self wifi_positions i xy) directions)
              wifi_positions).

(** ** Hill climber *)

(** What one pass through the body of the [while] loop does. *)
Inductive control : Type :=
| Break
| Continue (st : Dict).

(** The pairs [(n, calculate_objective(n))] the generator expression
    yields; the [None] of the default tuple makes the first component
    optional. *)
Definition scored_neighbors (self : optimizer) (neighbors : list (list pos))
  : result (list (option (list pos) * Z)) :=
  mapM (λ n, s ← calculate_objective self n; mret (Some n, s)) neighbors.

(** The body of the [while] loop.  The branch that raises [TypeError] stands
    for [current_wifi = None]; it is dead code, as the default tuple carries
    [current_score] and so always breaks ([hill_climbing_body_Some]). *)
Definition hill_climbing_body (self : optimizer) (st : Dict) : result control :=
  let neighbors := get_neighbors self (wifi_positions st) in
  scored ← scored_neighbors self neighbors;
  let '(best_neighbor, best_score) := py_max snd (None, score st) scored in
  if best_score <=? score st then mret Break
  else match best_neighbor with
       | Some n =>
           mret (Continue {| wifi_positions := n;
                             score := best_score;
                             iterations := iterations st + 1;
                             improvements := improvements st + 1 |})
       | None => Raise TypeError
       end.

(** [while iterations < max_iterations: ...]. *)
Fixpoint hill_climbing_loop (self : optimizer) (max_iterations : Z)
    (fuel : nat) (st : Dict) : result Dict :=
  match fuel with
  | O => OutOfFuel
  | S fuel' =>
      if iterations st <? max_iterations then
        c ← hill_climbing_body self st;
        match c with
        | Break => mret st
        | Continue st' => hill_climbing_loop self max_iterations fuel' st'
        end
      else mret st
  end.

Definition hill_climbing (self : optimizer) (initial_wifi : list pos)
    (max_iterations : Z) : result Dict :=
  current_score ← calculate_objective self initial_wifi;
  hill_climbing_loop self max_iterations (S (Z.to_nat max_iterations))
    {| wifi_positions := initial_wifi;
       score := current_score;
       iterations := 0;
       improvements := 0 |}.

(** The successive states of a run, the initial one first: each later entry
    is a neighbour the loop adopted.  Ghost code, it follows
    [hill_climbing_loop] pass by pass. *)
Fixpoint adopted (self : optimizer) (max_iterations : Z) (fuel : nat)
    (st : Dict) : list Dict :=
  st :: match fuel with
        | O => []
        | S fuel' =>
            if iterations st <? max_iterations then
              match hill_climbing_body self st with
              | Ok (Continue st') => adopted self max_iterations fuel' st'
              | _ => []
              end
            else []
        end.

(** ** Random placements and the restart controller *)

(** [float('-inf')] or an integer score: the values [best_score] takes. *)
Inductive best : Type :=
| NegInf
| Int (z : Z).

(** [s > best_score] for an integer [s]. *)
Definition exceeds (s : Z) (b : best) : bool :=
  match b with
  | NegInf => true
  | Int z => z <? s
  end.

(** The local variables of [hill_climbing_with_random_restart]. *)
Record locals : Type := {
  best_solution : option (list pos);
  best_score : best;
  best_restart_num : Z;
  all_results : list Dict;
  total_improvements : Z
}.

(** The ['statistics'] dictionary.  The floating-point entries
    ([average_score], [std_score], [improvement_rate]) are not represented;
    the exceptions their computation can raise are. *)
Module Statistics.
Record t : Type := {
  best_score : best;
  worst_score : Z;
  unique_solutions : nat;
  total_improvements : Z
}.
End Statistics.

(** The dictionary [hill_climbing_with_random_restart] returns, without the
    wall-clock entry [total_time]. *)
Module Results.
Record t : Type := {
  best_wifi_positions : option (list pos);
  best_score : best;
  best_restart_num : Z;
  total_restarts : Z;
  all_results : list Dict;
  statistics : Statistics.t
}.
End Results.

(** [(randint(0, grid_size - 1), randint(0, grid_size - 1)) for _ in
    range(n)]: the draws in the order they are made. *)
Fixpoint random_positions (grid_size : Z) (n : nat) (g : rng)
  : result (list pos * rng) :=
  match n with
  | O => mret ([], g)
  | S n' =>
      '(x, g1) ← randint 0 (grid_size - 1) g;
      '(y, g2) ← randint 0 (grid_size - 1) g1;
      '(ps, g3) ← random_positions grid_size n' g2;
      mret ((x, y) :: ps, g3)
  end.

Section Optimizer.

(** [list(set(...))]: the order in which a Python set is traversed is
    not specified; [list_of_set] stands for it.  What is known of it is
    that it lists each distinct element once: the properties below that
    need this assume [list_of_set l] a permutation of [remove_dups l]. *)
Variable list_of_set : list pos → list pos.

(** [generate_random_computers] assigns [self.computers]; the instance with
    the new attribute is returned. *)
Definition generate_random_computers (self : optimizer) (g : rng)
  : result (optimizer * rng) :=
  '(ps, g') ← random_positions (grid_size self)
                               (Z.to_nat (num_computers self)) g;
  mret ({| grid_size := grid_size self;
           num_computers := num_computers self;
           num_wifi := num_wifi self;
           computers := list_of_set ps |}, g').

(** [__init__]. *)
Definition init (grid_size num_computers num_wifi : Z) (g : rng)
  : result (optimizer * rng) :=
  generate_random_computers
    {| grid_size := grid_size;
       num_computers := num_computers;
       num_wifi := num_wifi;
       computers := [] |} g.

Definition generate_random_wifi (self : optimizer) (g : rng)
  : result (list pos * rng) :=
  '(ps, g') ← random_positions (grid_size self) (Z.to_nat (num_wifi self)) g;
  mret (list_of_set ps, g').

(** [calculate_average_distance], called on [results['best_wifi_positions']]
    (possibly [None]).  The quotient is a float and is not represented;
    the exceptions are. *)
Definition calculate_average_distance (self : optimizer)
    (wifi_positions : option (list pos)) : result () :=
  match wifi_positions with
  | None =>
      match computers self with
      | [] => Raise ZeroDivisionError
      | _ :: _ => Raise TypeError
      end
  | Some wifi =>
      _ ← mapM (λ computer, py_min (manhattan_distance computer <$> wifi))
               (computers self);
      if (length (computers self) =? 0)%nat then Raise ZeroDivisionError
      else mret ()
  end.

(** [print_analysis]: the text is an output only; what reaches the caller
    is an exception of the quotients it evaluates. *)
Definition print_analysis (self : optimizer) (results : Results.t) : result () :=
  _ ← (if Results.total_restarts results =? 0 then Raise ZeroDivisionError
       else mret ());
  calculate_average_distance self (Results.best_wifi_positions results).

(** One pass of [for restart in range(num_restarts)]. *)
Definition restart_body (self : optimizer) (max_iterations : Z)
    (restart : Z) (s : locals * rng) : result (locals * rng) :=
  let '(v, g) := s in
  '(initial_wifi, g') ← generate_random_wifi self g;
  result ← hill_climbing self initial_wifi max_iterations;
  let all_results' := all_results v ++ [result] in
  let total_improvements' := total_improvements v + improvements result in
  if exceeds (score result) (best_score v) then
    mret ({| best_solution := Some (wifi_positions result);
             best_score := Int (score result);
             best_restart_num := restart + 1;
             all_results := all_results';
             total_improvements := total_improvements' |}, g')
  else
    mret ({| best_solution := best_solution v;
             best_score := best_score v;
             best_restart_num := best_restart_num v;
             all_results := all_results';
             total_improvements := total_improvements' |}, g').

Definition initial_locals : locals :=
  {| best_solution := None;
     best_score := NegInf;
     best_restart_num := 0;
     all_results := [];
     total_improvements := 0 |}.

Definition hill_climbing_with_random_restart (self : optimizer)
    (num_restarts max_iterations : Z) (verbose : bool) (g : rng)
  : result (Results.t * rng) :=
  '(v, g') ← for_each (restart_body self max_iterations)
                      (seqZ 0 num_restarts) (initial_locals, g);
  let scores := score <$> all_results v in
  worst_score ← py_min scores;
  _ ← (if num_restarts =? 0 then Raise ZeroDivisionError else mret ());
  let results :=
    {| Results.best_wifi_positions := best_solution v;
       Results.best_score := best_score v;
       Results.best_restart_num := best_restart_num v;
       Results.total_restarts := num_restarts;
       Results.all_results := all_results v;
       Results.statistics :=
         {| Statistics.best_score := best_score v;
            Statistics.worst_score := worst_score;
            Statistics.unique_solutions := length (remove_dups scores);
            Statistics.total_improvements := total_improvements v |} |} in
  if verbose then _ ← print_analysis self results; mret (results, g')
  else mret (results, g').

End Optimizer.

(** ** Vocabulary of the properties *)

(** What [max] with a key returns on a non-empty list: an item at some
    index [k] whose key bounds every key and strictly exceeds the keys of
    the items before [k]. *)
Definition first_max {A : Type} (key : A → Z) (l : list A) (k : nat) (x : A)
  : Prop :=
  l !! k = Some x
  ∧ (∀ y, y ∈ l → key y ≤ key x)
  ∧ (∀ j y, (j < k)%nat → l !! j = Some y → key y < key x).

(** The placements on which the objective is defined: [min] needs a Wi-Fi
    for every computer there is. *)
Definition evaluable (self : optimizer) (wifi : list pos) : Prop :=
  wifi ≠ [] ∨ computers self = [].

Definition in_grid (self : optimizer) (p : pos) : Prop :=
  0 ≤ p.1 < grid_size self ∧ 0 ≤ p.2 < grid_size self.

(** The state the loop starts from. *)
Definition initial_state (initial_wifi : list pos) (current_score : Z) : Dict :=
  {| wifi_positions := initial_wifi;
     score := current_score;
     iterations := 0;
     improvements := 0 |}.

(** The loop moves from [st] to [st']: the guard holds and the body adopts
    the best neighbour. *)
Definition adopts (self : optimizer) (max_iterations : Z) (st st' : Dict) : Prop :=
  iterations st < max_iterations
  ∧ hill_climbing_body self st = Ok (Continue st').

(** The loop stops at [st]: the cap is reached or no neighbour improves. *)
Definition stops (self : optimizer) (max_iterations : Z) (st : Dict) : Prop :=
  max_iterations ≤ iterations st ∨ hill_climbing_body self st = Ok Break.

(** The trace of the run [hill_climbing] makes. *)
Definition hill_climbing_trace (self : optimizer) (initial_wifi : list pos)
    (max_iterations : Z) : list Dict :=
  match calculate_objective self initial_wifi with
  | Ok current_score =>
      adopted self max_iterations (S (Z.to_nat max_iterations))
        (initial_state initial_wifi current_score)
  | _ => []
  end.

(** The enumeration [get_neighbors] walks through: Wi-Fi index first, then
    direction. *)
Definition enumeration (wifi_positions : list pos) : list (nat * (Z * Z)) :=
  i ← seq 0 (length wifi_positions); d ← directions; [(i, d)].

Definition candidate (self : optimizer) (wifi_positions : list pos)
    (c : nat * (Z * Z)) : option (list pos) :=
  xy ← wifi_positions !! c.1; move self wifi_positions c.1 xy c.2.

(** A recorded result is the climb from a generated start. *)
Definition is_run (list_of_set : list pos → list pos) (self : optimizer)
    (max_iterations : Z) (r : Dict) : Prop :=
  ∃ w g0 g1,
    generate_random_wifi list_of_set self g0 = Ok (w, g1)
    ∧ hill_climbing self w max_iterations = Ok r.

(** The incumbent is the first of the best results recorded so far. *)
Definition tracks_best (v : locals) : Prop :=
  match all_results v with
  | [] => best_score v = NegInf ∧ best_solution v = None ∧ best_restart_num v = 0
  | _ :: _ =>
      ∃ k r, first_max score (all_results v) k r
             ∧ best_score v = Int (score r)
             ∧ best_solution v = Some (wifi_positions r)
             ∧ best_restart_num v = Z.of_nat k + 1
  end.

(** A placement some component produced: the random generator returned it,
    or it is a neighbour of a placement that lies on the grid. *)
Definition produced (list_of_set : list pos → list pos) (self : optimizer)
    (p : list pos) : Prop :=
  (∃ g g', generate_random_wifi list_of_set self g = Ok (p, g'))
  ∨ (∃ l, Forall (in_grid self) l ∧ p ∈ get_neighbors self l).

(** ** Instances *)

(** The instance of the worked scenario: a 3x3 grid, clients at (0,0) and
    (0,2), one Wi-Fi. *)
Definition c1_self : optimizer :=
  {| grid_size := 3; num_computers := 2; num_wifi := 1;
     computers := [(0, 0); (0, 2)] |}.

(** An instance with one client and no Wi-Fi to place. *)
Definition c2_self : optimizer :=
  {| grid_size := 3; num_computers := 1; num_wifi := 0;
     computers := [(0, 0)] |}.

(** An instance in which two neighbours of [(0,0)] tie for the best score. *)
Definition c5_self : optimizer :=
  {| grid_size := 3; num_computers := 1; num_wifi := 1;
     computers := [(1, 1)] |}.

(** An instance that places three Wi-Fi. *)
Definition c7_self : optimizer :=
  {| grid_size := 3; num_computers := 2; num_wifi := 3;
     computers := [(0, 0); (0, 2)] |}.

(** A tape of raw draws: 0, 1, 2, ... *)
Definition counting_tape : rng := λ n, Z.of_nat n.

(** ** Further code: the nearest Wi-Fi of [visualize_solution] *)

(** [float('inf')] or an integer distance: the values [min_distance] takes. *)
Inductive bound : Type :=
| PosInf
| Dist (z : Z).

(** [distance < min_distance] for an integer [distance]. *)
Definition below (distance : Z) (b : bound) : bool :=
  match b with
  | PosInf => true
  | Dist z => distance <? z
  end.

(** One pass of [for wifi in wifi_positions] in [visualize_solution]; the
    state is [(min_distance, nearest_wifi)]. *)
Definition nearest_step (computer : pos) (s : bound * option pos) (wifi : pos)
  : bound * option pos :=
  let distance := manhattan_distance computer wifi in
  if below distance s.1 then (Dist distance, Some wifi) else s.

(** The [nearest_wifi] the loop leaves for a computer. *)
Definition nearest_wifi (computer : pos) (wifi_positions : list pos)
  : option pos :=
  (foldl (nearest_step computer) (PosInf, None) wifi_positions).2.

(** The segments [visualize_solution] plots: one per computer for which
    [nearest_wifi] is set (a tuple of two integers is always true). *)
Definition connections (self : optimizer) (wifi_positions : list pos)
  : list (pos * pos) :=
  omap (λ computer, w ← nearest_wifi computer wifi_positions; Some (computer, w))
       (computers self).

(** ** Further vocabulary *)

(** The distance from a computer to the nearest of a non-empty list of
    Wi-Fi (0 on the empty list, where the code raises). *)
Definition nearest (wifi : list pos) (computer : pos) : Z :=
  match manhattan_distance computer <$> wifi with
  | [] => 0
  | x :: xs => foldl Z.min x xs
  end.

(** The state [st] with its counters advanced by [k]. *)
Definition shift (k : Z) (st : Dict) : Dict :=
  {| wifi_positions := wifi_positions st;
     score := score st;
     iterations := iterations st + k;
     improvements := improvements st + k |}.

(** * Properties *)

(** ** The result monad and the built-ins *)

Lemma mapM_Ok_inv {A B : Type} (f : A → result B) (l : list A) (ys : list B) :
  mapM f l = Ok ys → Forall2 (λ x y, f x = Ok y) l ys.
Proof.
  revert ys. induction l as [|x l IH]; intros ys; simpl.
  - intros [= <-]. constructor.
  - destruct (f x) as [y| |] eqn:Hx; simpl; try discriminate.
    destruct (mapM f l) as [k| |]; simpl; try discriminate.
    intros [= <-]. constructor; auto.
Qed.

Lemma mapM_Ok_intro {A B : Type} (f : A → result B) (l : list A) (ys : list B) :
  Forall2 (λ x y, f x = Ok y) l ys → mapM f l = Ok ys.
Proof.
  induction 1 as [|x y l ys Hx _ IH]; simpl; [done|].
  by rewrite Hx; simpl; rewrite IH.
Qed.

Lemma mapM_total {A B : Type} (f : A → result B) (l : list A) :
  Forall (λ x, ∃ y, f x = Ok y) l → ∃ ys, mapM f l = Ok ys.
Proof.
  induction 1 as [|x l [y Hx] _ [ys IH]]; simpl; [by eexists|].
  rewrite Hx; simpl. rewrite IH; simpl. by eexists.
Qed.

Lemma py_min_Ok (l : list Z) : l ≠ [] → ∃ m, py_min l = Ok m.
Proof. destruct l; [done|]. intros _. by eexists. Qed.

Lemma foldl_max_first {A : Type} (key : A → Z) (pre xs : list A) (k : nat) (b : A) :
  first_max key pre k b →
  ∃ k', first_max key (pre ++ xs) k'
          (foldl (λ best item, if key best <? key item then item else best) b xs).
Proof.
  revert pre k b. induction xs as [|x xs IH]; intros pre k b Hb; simpl.
  - exists k. by rewrite app_nil_r.
  - replace (pre ++ x :: xs) with ((pre ++ [x]) ++ xs) by by rewrite <-app_assoc.
    destruct Hb as (Hk & Hmax & Hlt).
    destruct (Z.ltb_spec (key b) (key x)) as [Hbx|Hbx].
    + apply (IH _ (length pre)). split_and!.
      * by rewrite lookup_app_r, Nat.sub_diag.
      * intros y [Hy| ->%list_elem_of_singleton]%elem_of_app; [|lia].
        specialize (Hmax y Hy). lia.
      * intros j y Hj Hy. rewrite lookup_app_l in Hy by done.
        assert (key y ≤ key b) by (apply Hmax; by eapply list_elem_of_lookup_2).
        lia.
    + apply (IH _ k). split_and!.
      * rewrite lookup_app_l; [done|]. by eapply lookup_lt_Some.
      * intros y [Hy| ->%list_elem_of_singleton]%elem_of_app; [auto|lia].
      * intros j y Hj Hy. apply (Hlt j y Hj).
        rewrite lookup_app_l in Hy; [done|].
        apply lookup_lt_Some in Hk. lia.
Qed.

Lemma py_max_first {A : Type} (key : A → Z) (d : A) (l : list A) :
  l ≠ [] → ∃ k, first_max key l k (py_max key d l).
Proof.
  destruct l as [|x xs]; [done|]. intros _. simpl.
  apply (foldl_max_first key [x] xs 0 x). split_and!.
  - done.
  - by intros y ->%list_elem_of_singleton.
  - intros j y Hj. lia.
Qed.

Lemma length_remove_dups_le `{EqDecision A} (l : list A) :
  (length (remove_dups l) ≤ length l)%nat.
Proof.
  induction l as [|x l IH]; simpl; [done|].
  destruct (decide_rel elem_of x l); simpl; lia.
Qed.

Lemma all_distinct_NoDup `{EqDecision A} (l : list A) :
  all_distinct l = true ↔ NoDup l.
Proof.
  unfold all_distinct. rewrite Nat.eqb_eq. split.
  - intros Hlen. induction l as [|x l IH]; [constructor|].
    simpl in Hlen. destruct (decide_rel elem_of x l) as [Hin|Hin].
    + pose proof (length_remove_dups_le l). lia.
    + simpl in Hlen. constructor; [done|]. apply IH. lia.
  - intros Hnd. induction Hnd as [|x l Hin _ IH]; [done|].
    simpl. destruct (decide_rel elem_of x l); [done|]. simpl. by rewrite IH.
Qed.

(** ** Objective *)

Lemma evaluable_length (self : optimizer) (wifi wifi' : list pos) :
  length wifi' = length wifi → evaluable self wifi → evaluable self wifi'.
Proof.
  intros Hlen [Hne|Hc]; [left|by right].
  destruct wifi, wifi'; simpl in *; congruence.
Qed.

Lemma calculate_objective_Ok (self : optimizer) (wifi : list pos) :
  evaluable self wifi → ∃ s, calculate_objective self wifi = Ok s.
Proof.
  intros Hev. unfold calculate_objective.
  destruct (mapM_total
              (λ computer, py_min (manhattan_distance computer <$> wifi))
              (computers self)) as [ds Hds].
  - destruct Hev as [Hne|Hc].
    + apply List.Forall_forall. intros c _. apply py_min_Ok.
      destruct wifi; [done|]. discriminate.
    + rewrite Hc. constructor.
  - rewrite Hds. simpl. by eexists.
Qed.

Lemma calculate_objective_empty (self : optimizer) :
  computers self ≠ [] → calculate_objective self [] = Raise ValueError.
Proof.
  unfold calculate_objective. destruct (computers self); [done|]. by intros _.
Qed.

Lemma calculate_objective_Ok_evaluable (self : optimizer) (wifi : list pos) (s : Z) :
  calculate_objective self wifi = Ok s → evaluable self wifi.
Proof.
  intros Hs. destruct wifi as [|p wifi]; [|by left].
  destruct (computers self) as [|c cs] eqn:Hc; [by right|].
  rewrite calculate_objective_empty in Hs; [done|]. by rewrite Hc.
Qed.

(** ** Neighbour generator *)

Lemma elem_of_get_neighbors (self : optimizer) (l n : list pos) :
  n ∈ get_neighbors self l ↔
  ∃ i xy d, l !! i = Some xy ∧ d ∈ directions ∧ move self l i xy d = Some n.
Proof.
  unfold get_neighbors. rewrite list_elem_of_join. split.
  - intros (ns & Hn & Hns). apply elem_of_lookup_imap in Hns as (i & xy & -> & Hi).
    apply list_elem_of_omap in Hn as (d & Hd & Hm). eauto 6.
  - intros (i & xy & d & Hi & Hd & Hm).
    exists (omap (move self l i xy) directions). split.
    + apply list_elem_of_omap. eauto.
    + apply elem_of_lookup_imap. eauto.
Qed.

Lemma move_Some (self : optimizer) (l : list pos) (i : nat) (xy : pos)
    (d : Z * Z) (n : list pos) :
  move self l i xy d = Some n →
  n = <[i := (xy.1 + d.1, xy.2 + d.2)]> l
  ∧ in_grid self (xy.1 + d.1, xy.2 + d.2)
  ∧ NoDup n.
Proof.
  unfold move, in_grid.
  destruct (_ && _) eqn:Hb; [|done].
  destruct (all_distinct _) eqn:Hd; [|done].
  intros [= <-]. apply all_distinct_NoDup in Hd.
  repeat (apply andb_prop in Hb as [Hb ?]). simpl. split_and!; try done; lia.
Qed.

Lemma get_neighbors_length (self : optimizer) (l n : list pos) :
  n ∈ get_neighbors self l → length n = length l.
Proof.
  intros (i & xy & d & _ & _ & Hm)%elem_of_get_neighbors.
  apply move_Some in Hm as (-> & _). apply length_insert.
Qed.

(** ** One pass of the climbing loop *)

Lemma scored_neighbors_inv (self : optimizer) (ns : list (list pos))
    (scored : list (option (list pos) * Z)) :
  scored_neighbors self ns = Ok scored →
  Forall2 (λ n p, p.1 = Some n ∧ calculate_objective self n = Ok p.2) ns scored.
Proof.
  intros H%mapM_Ok_inv. eapply Forall2_impl; [exact H|].
  intros n p. simpl. destruct (calculate_objective self n); simpl; [|done..].
  by intros [= <-].
Qed.

Lemma scored_neighbors_total (self : optimizer) (ns : list (list pos)) :
  Forall (evaluable self) ns → ∃ scored, scored_neighbors self ns = Ok scored.
Proof.
  intros Hev. apply mapM_total. eapply Forall_impl; [exact Hev|].
  intros n [s Hs]%calculate_objective_Ok. rewrite Hs. by eexists.
Qed.

Lemma hill_climbing_body_Continue (self : optimizer) (st st' : Dict) :
  hill_climbing_body self st = Ok (Continue st') →
  ∃ scored k,
    scored_neighbors self (get_neighbors self (wifi_positions st)) = Ok scored
    ∧ first_max snd scored k (Some (wifi_positions st'), score st')
    ∧ score st < score st'
    ∧ iterations st' = iterations st + 1
    ∧ improvements st' = improvements st + 1.
Proof.
  unfold hill_climbing_body.
  destruct (scored_neighbors _ _) as [scored| |] eqn:Hsc; simpl; [|done..].
  destruct (py_max snd (None, score st) scored) as [bn bs] eqn:Hmax.
  destruct (Z.leb_spec bs (score st)) as [|Hlt]; [done|].
  destruct bn as [n|]; [|done]. intros [= <-]. simpl.
  destruct (decide (scored = [])) as [->|Hne].
  { simpl in Hmax. injection Hmax as _ <-. lia. }
  destruct (py_max_first snd (None, score st) scored Hne) as [k Hk].
  rewrite Hmax in Hk. by exists scored, k.
Qed.

Lemma hill_climbing_body_Break (self : optimizer) (st : Dict) :
  hill_climbing_body self st = Ok Break →
  ∃ scored,
    scored_neighbors self (get_neighbors self (wifi_positions st)) = Ok scored
    ∧ ∀ p, p ∈ scored → p.2 ≤ score st.
Proof.
  unfold hill_climbing_body.
  destruct (scored_neighbors _ _) as [scored| |] eqn:Hsc; simpl; [|done..].
  destruct (py_max snd (None, score st) scored) as [bn bs] eqn:Hmax.
  destruct (Z.leb_spec bs (score st)) as [Hle|]; [|by destruct bn].
  intros _. exists scored. split; [done|]. intros p Hp.
  destruct (decide (scored = [])) as [->|Hne]; [by apply elem_of_nil in Hp|].
  destruct (py_max_first snd (None, score st) scored Hne) as (k & _ & Hk & _).
  rewrite Hmax in Hk. specialize (Hk p Hp). simpl in Hk. lia.
Qed.

(** The loop body never leaves [current_wifi] at [None], and returns on every
    placement the objective is defined on. *)
Lemma hill_climbing_body_Some (self : optimizer) (st : Dict) :
  evaluable self (wifi_positions st) → ∃ c, hill_climbing_body self st = Ok c.
Proof.
  intros Hev. unfold hill_climbing_body.
  destruct (scored_neighbors_total self (get_neighbors self (wifi_positions st)))
    as [scored Hsc].
  { apply List.Forall_forall. intros n Hn%list_elem_of_In%get_neighbors_length.
    by eapply evaluable_length. }
  rewrite Hsc. simpl.
  destruct (py_max snd (None, score st) scored) as [bn bs] eqn:Hmax.
  destruct (Z.leb_spec bs (score st)) as [|Hlt]; [by eexists|].
  destruct bn as [n|]; [by eexists|].
  destruct (decide (scored = [])) as [->|Hne].
  { simpl in Hmax. injection Hmax as <-. lia. }
  destruct (py_max_first snd (None, score st) scored Hne) as (k & Hk & _).
  rewrite Hmax in Hk. apply scored_neighbors_inv in Hsc.
  destruct (Forall2_lookup_r _ _ _ _ _ Hsc Hk) as (n & _ & Hn & _). done.
Qed.

Lemma hill_climbing_body_evaluable (self : optimizer) (st st' : Dict) :
  hill_climbing_body self st = Ok (Continue st') →
  wifi_positions st' ∈ get_neighbors self (wifi_positions st)
  ∧ calculate_objective self (wifi_positions st') = Ok (score st').
Proof.
  intros (scored & k & Hsc & (Hk & _) & _)%hill_climbing_body_Continue.
  apply scored_neighbors_inv in Hsc.
  destruct (Forall2_lookup_r _ _ _ _ _ Hsc Hk) as (n & Hn & Hn1 & Hn2).
  simpl in *. injection Hn1 as <-. split; [|done].
  by eapply list_elem_of_lookup_2.
Qed.

(** ** The climbing loop *)

Lemma hill_climbing_unfold (self : optimizer) (initial_wifi : list pos)
    (max_iterations : Z) :
  hill_climbing self initial_wifi max_iterations =
  current_score ← calculate_objective self initial_wifi;
  hill_climbing_loop self max_iterations (S (Z.to_nat max_iterations))
    (initial_state initial_wifi current_score).
Proof. reflexivity. Qed.

(** Invariants of the loop carry over to what it returns. *)
Lemma hill_climbing_loop_invariant (self : optimizer) (max_iterations : Z)
    (P : Dict → Prop) :
  (∀ st st', P st → adopts self max_iterations st st' → P st') →
  ∀ fuel st d,
    P st → hill_climbing_loop self max_iterations fuel st = Ok d → P d.
Proof.
  intros Hstep. induction fuel as [|fuel IH]; intros st d HP; simpl; [done|].
  destruct (Z.ltb_spec (iterations st) max_iterations) as [Hlt|Hge].
  - destruct (hill_climbing_body self st) as [[|st']| |] eqn:Hb; simpl; try done.
    + by intros [= <-].
    + apply IH. by apply (Hstep st).
  - by intros [= <-].
Qed.

(** Fuel beyond the number of passes the cap still allows is enough. *)
Lemma hill_climbing_loop_fuel (self : optimizer) (max_iterations : Z)
    (fuel : nat) (st : Dict) :
  evaluable self (wifi_positions st) →
  (Z.to_nat (max_iterations - iterations st) < fuel)%nat →
  ∃ d, hill_climbing_loop self max_iterations fuel st = Ok d.
Proof.
  revert st. induction fuel as [|fuel IH]; intros st Hev Hfuel; [lia|]. simpl.
  destruct (Z.ltb_spec (iterations st) max_iterations) as [Hlt|Hge];
    [|by eexists].
  destruct (hill_climbing_body_Some self st Hev) as [[|st'] Hb];
    rewrite Hb; simpl; [by eexists|].
  pose proof (hill_climbing_body_Continue _ _ _ Hb) as (_ & _ & _ & _ & _ & Hit & _).
  apply hill_climbing_body_evaluable in Hb as [Hn%get_neighbors_length _].
  apply IH; [by eapply evaluable_length|]. lia.
Qed.

(** [hill_climbing] returns on every placement the objective is defined on,
    whatever the cap. *)
Lemma hill_climbing_total (self : optimizer) (initial_wifi : list pos)
    (max_iterations : Z) :
  evaluable self initial_wifi →
  ∃ d, hill_climbing self initial_wifi max_iterations = Ok d.
Proof.
  intros Hev. rewrite hill_climbing_unfold.
  destruct (calculate_objective_Ok self initial_wifi Hev) as [s ->].
  change (∃ d, hill_climbing_loop self max_iterations (S (Z.to_nat max_iterations))
                 (initial_state initial_wifi s) = Ok d).
  apply hill_climbing_loop_fuel; [done|]. simpl. lia.
Qed.

(** On an empty placement with a computer to serve, it raises instead. *)
Lemma hill_climbing_empty (self : optimizer) (max_iterations : Z) :
  computers self ≠ [] → hill_climbing self [] max_iterations = Raise ValueError.
Proof.
  intros Hc. rewrite hill_climbing_unfold.
  by rewrite calculate_objective_empty.
Qed.

(** The trace ends in the state the loop returns, where the loop stops. *)
Lemma adopted_last (self : optimizer) (max_iterations : Z) (fuel : nat)
    (st d : Dict) :
  hill_climbing_loop self max_iterations fuel st = Ok d →
  last (adopted self max_iterations fuel st) = Some d
  ∧ stops self max_iterations d.
Proof.
  revert st. induction fuel as [|fuel IH]; intros st; simpl; [done|].
  destruct (Z.ltb_spec (iterations st) max_iterations) as [Hlt|Hge].
  - destruct (hill_climbing_body self st) as [[|st']| |] eqn:Hb; simpl; try done.
    + intros [= <-]. split; [done|]. by right.
    + intros [Hl Hs]%IH. split; [|done].
      by rewrite last_cons, Hl.
  - intros [= <-]. split; [done|]. by left.
Qed.

Lemma adopted_head (self : optimizer) (max_iterations : Z) (fuel : nat) (st : Dict) :
  head (adopted self max_iterations fuel st) = Some st.
Proof. by destruct fuel. Qed.

(** Consecutive entries of the trace are adoptions. *)
Lemma adopted_chain (self : optimizer) (max_iterations : Z) (fuel : nat)
    (st : Dict) (i : nat) (a b : Dict) :
  adopted self max_iterations fuel st !! i = Some a →
  adopted self max_iterations fuel st !! S i = Some b →
  adopts self max_iterations a b.
Proof.
  revert st i. induction fuel as [|fuel IH]; intros st i; simpl.
  { by destruct i. }
  destruct (Z.ltb_spec (iterations st) max_iterations) as [Hlt|Hge];
    [|by destruct i].
  destruct (hill_climbing_body self st) as [[|st']| |] eqn:Hb;
    try by destruct i.
  destruct i as [|i]; simpl.
  - intros [= <-]. rewrite <-head_lookup, adopted_head. by intros [= <-].
  - apply IH.
Qed.

(** A chain of adoptions has strictly increasing scores. *)
Lemma adopts_score_lt (self : optimizer) (max_iterations : Z) (st st' : Dict) :
  adopts self max_iterations st st' → score st < score st'.
Proof. by intros [_ (? & ? & _ & _ & ? & _)%hill_climbing_body_Continue]. Qed.

Lemma adopted_sorted (self : optimizer) (max_iterations : Z) (fuel : nat)
    (st : Dict) :
  StronglySorted Z.lt (score <$> adopted self max_iterations fuel st).
Proof.
  revert st. induction fuel as [|fuel IH]; intros st; simpl.
  { repeat constructor. }
  destruct (Z.ltb_spec (iterations st) max_iterations) as [Hlt|Hge];
    [|repeat constructor].
  destruct (hill_climbing_body self st) as [[|st']| |] eqn:Hb;
    try (repeat constructor).
  - apply IH.
  - specialize (IH st'). pose proof (adopted_head self max_iterations fuel st') as Hh.
    destruct (adopted self max_iterations fuel st') as [|h tr]; [done|].
    injection Hh as ->. simpl in *.
    assert (score st < score st') as Hlt'.
    { by apply (adopts_score_lt self max_iterations). }
    apply StronglySorted_inv in IH as [_ Hall]. constructor; [done|].
    eapply Forall_impl; [exact Hall|]. simpl. lia.
Qed.

Lemma hill_climbing_loop_adopt (self : optimizer) (max_iterations : Z)
    (fuel : nat) (st st' : Dict) :
  adopts self max_iterations st st' →
  hill_climbing_loop self max_iterations (S fuel) st
  = hill_climbing_loop self max_iterations fuel st'.
Proof.
  intros [Hlt Hb]. simpl. apply Z.ltb_lt in Hlt. by rewrite Hlt, Hb.
Qed.

Lemma hill_climbing_loop_stop (self : optimizer) (max_iterations : Z)
    (fuel : nat) (st : Dict) :
  stops self max_iterations st →
  hill_climbing_loop self max_iterations (S fuel) st = Ok st.
Proof.
  intros Hs. simpl.
  destruct (Z.ltb_spec (iterations st) max_iterations) as [Hlt|Hge]; [|done].
  destruct Hs as [Hs|Hs]; [lia|]. by rewrite Hs.
Qed.

(** Both counters advance by one per adoption, and only then. *)
Lemma hill_climbing_loop_counters (self : optimizer) (max_iterations : Z)
    (fuel : nat) (st d : Dict) :
  hill_climbing_loop self max_iterations fuel st = Ok d →
  iterations d
  = iterations st + Z.of_nat (length (adopted self max_iterations fuel st)) - 1
  ∧ improvements d
  = improvements st + Z.of_nat (length (adopted self max_iterations fuel st)) - 1.
Proof.
  revert st. induction fuel as [|fuel IH]; intros st; simpl; [done|].
  destruct (Z.ltb_spec (iterations st) max_iterations) as [Hlt|Hge].
  - destruct (hill_climbing_body self st) as [[|st']| |] eqn:Hb; simpl; try done.
    + intros [= <-]. lia.
    + intros [Hit Him]%IH.
      apply hill_climbing_body_Continue in Hb as (_ & _ & _ & _ & _ & Hit' & Him').
      lia.
  - intros [= <-]. simpl. lia.
Qed.

Lemma omap_bind_list {A B C : Type} (g : B → option C) (h : A → list B)
    (l : list A) :
  omap g (l ≫= h) = l ≫= λ x, omap g (h x).
Proof.
  induction l as [|x l IH]; [done|].
  by rewrite !bind_cons, omap_app, IH.
Qed.

Lemma imap_omap_enumeration {B : Type} (F : nat → pos → Z * Z → option B)
    (l : list pos) :
  mjoin (imap (λ i xy, omap (F i xy) directions) l)
  = omap (λ c : nat * (Z * Z), xy ← l !! c.1; F c.1 xy c.2) (enumeration l).
Proof.
  unfold enumeration. revert F. induction l as [|p l IH]; intros F; [done|].
  rewrite imap_cons. cbn [mjoin list_join length seq].
  rewrite bind_cons, omap_app. f_equal.
  etrans; [apply (IH (λ i, F (S i)))|].
  rewrite <-fmap_S_seq, list_fmap_bind, !omap_bind_list.
  by apply list_bind_ext.
Qed.

Lemma get_neighbors_enumeration (self : optimizer) (wifi_positions : list pos) :
  get_neighbors self wifi_positions
  = omap (candidate self wifi_positions) (enumeration wifi_positions).
Proof. apply imap_omap_enumeration. Qed.

(** The climb keeps the number of Wi-Fi. *)
Lemma hill_climbing_length (self : optimizer) (initial_wifi : list pos)
    (max_iterations : Z) (d : Dict) :
  hill_climbing self initial_wifi max_iterations = Ok d →
  length (wifi_positions d) = length initial_wifi.
Proof.
  rewrite hill_climbing_unfold.
  destruct (calculate_objective self initial_wifi) as [s| |]; [|done..].
  apply (hill_climbing_loop_invariant self max_iterations
           (λ st, length (wifi_positions st) = length initial_wifi)); [|done].
  intros st st' Hst [_ [Hn _]%hill_climbing_body_evaluable].
  apply get_neighbors_length in Hn. congruence.
Qed.

(** ** Random draws *)

Lemma randint_range (a b : Z) (g : rng) (v : Z) (g' : rng) :
  randint a b g = Ok (v, g') → a ≤ v ≤ b.
Proof.
  unfold randint. destruct (Z.ltb_spec b a) as [|Hab]; [done|].
  intros [= <- _]. pose proof (Z.mod_pos_bound (g 0%nat) (b - a + 1)). lia.
Qed.

Lemma randint_Ok (a b : Z) (g : rng) :
  a ≤ b → ∃ v g', randint a b g = Ok (v, g').
Proof.
  intros Hab. unfold randint.
  destruct (Z.ltb_spec b a) as [|_]; [lia|]. by do 2 eexists.
Qed.

Lemma randint_empty (a b : Z) (g : rng) : b < a → randint a b g = Raise ValueError.
Proof. intros Hab. unfold randint. by destruct (Z.ltb_spec b a); [|lia]. Qed.

Lemma random_positions_in_range (gs : Z) (n : nat) (g : rng) (ps : list pos)
    (g' : rng) :
  random_positions gs n g = Ok (ps, g') →
  length ps = n ∧ Forall (λ p, 0 ≤ p.1 < gs ∧ 0 ≤ p.2 < gs) ps.
Proof.
  revert g ps g'. induction n as [|n IH]; intros g ps g'; simpl.
  - intros [= <- _]. by split.
  - destruct (randint 0 (gs - 1) g) as [[x g1]| |] eqn:Hx; simpl; [|done..].
    destruct (randint 0 (gs - 1) g1) as [[y g2]| |] eqn:Hy; simpl; [|done..].
    destruct (random_positions gs n g2) as [[qs g3]| |] eqn:Hq; simpl; [|done..].
    intros [= <- _]. apply IH in Hq as [Hlen Hall].
    apply randint_range in Hx, Hy. split; [simpl; lia|].
    constructor; [simpl; lia|done].
Qed.

Lemma random_positions_Ok (gs : Z) (n : nat) (g : rng) :
  1 ≤ gs → ∃ ps g', random_positions gs n g = Ok (ps, g').
Proof.
  intros Hgs. revert g. induction n as [|n IH]; intros g; simpl.
  - by do 2 eexists.
  - destruct (randint_Ok 0 (gs - 1) g) as (x & g1 & ->); [lia|]. simpl.
    destruct (randint_Ok 0 (gs - 1) g1) as (y & g2 & ->); [lia|]. simpl.
    destruct (IH g2) as (ps & g3 & ->). simpl. by do 2 eexists.
Qed.

Lemma random_positions_empty_grid (gs : Z) (n : nat) (g : rng) :
  gs ≤ 0 → (0 < n)%nat → random_positions gs n g = Raise ValueError.
Proof.
  intros Hgs Hn. destruct n as [|n]; [lia|]. simpl.
  by rewrite randint_empty by lia.
Qed.

Lemma first_max_snoc_keep {A : Type} (key : A → Z) (l : list A) (k : nat)
    (x y : A) :
  first_max key l k x → key y ≤ key x → first_max key (l ++ [y]) k x.
Proof.
  intros (Hk & Hmax & Hlt) Hy. split_and!.
  - rewrite lookup_app_l; [done|]. by eapply lookup_lt_Some.
  - intros z [Hz| ->%list_elem_of_singleton]%elem_of_app; auto.
  - intros j z Hj Hz. apply (Hlt j z Hj).
    rewrite lookup_app_l in Hz; [done|]. apply lookup_lt_Some in Hk. lia.
Qed.

Lemma first_max_snoc_new {A : Type} (key : A → Z) (l : list A) (y : A) :
  (∀ z, z ∈ l → key z < key y) → first_max key (l ++ [y]) (length l) y.
Proof.
  intros Hlt. split_and!.
  - by rewrite lookup_app_r, Nat.sub_diag.
  - intros z [Hz| ->%list_elem_of_singleton]%elem_of_app; [|lia].
    specialize (Hlt z Hz). lia.
  - intros j z Hj Hz. rewrite lookup_app_l in Hz by done.
    apply Hlt. by eapply list_elem_of_lookup_2.
Qed.

(** ** The restart controller *)

Section Restart.

Variable list_of_set : list pos → list pos.

Lemma restart_body_inv (self : optimizer) (max_iterations restart : Z)
    (v v' : locals) (g g' : rng) :
  restart = Z.of_nat (length (all_results v)) →
  tracks_best v →
  Forall (is_run list_of_set self max_iterations) (all_results v) →
  restart_body list_of_set self max_iterations restart (v, g) = Ok (v', g') →
  length (all_results v') = S (length (all_results v))
  ∧ tracks_best v'
  ∧ Forall (is_run list_of_set self max_iterations) (all_results v').
Proof.
  intros Hidx Hbest Hruns. unfold restart_body.
  destruct (generate_random_wifi list_of_set self g) as [[w g1]| |] eqn:Hw;
    simpl; [|done..].
  destruct (hill_climbing self w max_iterations) as [r| |] eqn:Hr;
    simpl; [|done..].
  assert (Forall (is_run list_of_set self max_iterations) (all_results v ++ [r]))
    as Hruns'.
  { apply Forall_app. split; [done|]. constructor; [|done]. by exists w, g, g1. }
  assert (∃ a l, all_results v ++ [r] = a :: l) as (a & l & Hal).
  { destruct (all_results v); simpl; eauto. }
  unfold tracks_best in *.
  destruct (exceeds (score r) (best_score v)) eqn:Hex; intros [= <- <-]; simpl;
    (split; [rewrite length_app; simpl; lia|]); (split; [|exact Hruns']).
  - rewrite Hal, <-Hal. exists (length (all_results v)), r. split_and!; try done; [|lia].
    apply first_max_snoc_new. intros z Hz.
    destruct (all_results v) as [|b l'] eqn:Hv; [by apply elem_of_nil in Hz|].
    destruct Hbest as (k & x & (_ & Hmax & _) & Hs & _).
    rewrite Hs in Hex. simpl in Hex. apply Z.ltb_lt in Hex.
    specialize (Hmax z Hz). lia.
  - rewrite Hal, <-Hal.
    destruct (all_results v) as [|b l'] eqn:Hv.
    { destruct Hbest as (Hs & _). by rewrite Hs in Hex. }
    destruct Hbest as (k & x & Hfm & Hs & Hsol & Hnum).
    exists k, x. split_and!; try done.
    apply first_max_snoc_keep; [done|].
    rewrite Hs in Hex. simpl in Hex. by apply Z.ltb_ge in Hex.
Qed.

Lemma restart_loop_inv (self : optimizer) (max_iterations : Z) (m : nat) :
  ∀ (j : Z) (v v' : locals) (g g' : rng),
    j = Z.of_nat (length (all_results v)) →
    tracks_best v →
    Forall (is_run list_of_set self max_iterations) (all_results v) →
    for_each (restart_body list_of_set self max_iterations)
             (seqZ j (Z.of_nat m)) (v, g) = Ok (v', g') →
    length (all_results v') = (length (all_results v) + m)%nat
    ∧ tracks_best v'
    ∧ Forall (is_run list_of_set self max_iterations) (all_results v').
Proof.
  induction m as [|m IH]; intros j v v' g g' Hj Hbest Hruns.
  - rewrite seqZ_nil by lia. simpl. intros [= <- _]. split_and!; [lia|done..].
  - rewrite seqZ_cons by lia.
    replace (Z.pred (Z.of_nat (S m))) with (Z.of_nat m) by lia. cbn [for_each].
    destruct (restart_body list_of_set self max_iterations j (v, g))
      as [[v1 g1]| |] eqn:Hb; simpl; [|done..].
    apply restart_body_inv in Hb as (Hlen & Hbest1 & Hruns1); [|done..].
    intros (Hlen' & ? & ?)%IH; [|lia|done..]. split_and!; [lia|done..].
Qed.

(** What [hill_climbing_with_random_restart] returns is assembled from the
    variables the loop leaves. *)
Lemma hill_climbing_with_random_restart_inv (self : optimizer)
    (num_restarts max_iterations : Z) (verbose : bool) (g g' : rng)
    (res : Results.t) :
  hill_climbing_with_random_restart list_of_set self num_restarts
    max_iterations verbose g = Ok (res, g') →
  ∃ v, for_each (restart_body list_of_set self max_iterations)
                (seqZ 0 num_restarts) (initial_locals, g) = Ok (v, g')
       ∧ Results.best_wifi_positions res = best_solution v
       ∧ Results.best_score res = best_score v
       ∧ Results.best_restart_num res = best_restart_num v
       ∧ Results.all_results res = all_results v.
Proof.
  unfold hill_climbing_with_random_restart.
  destruct (for_each _ _ _) as [[v g1]| |]; simpl; [|done..].
  destruct (py_min _) as [worst| |]; simpl; [|done..].
  destruct (num_restarts =? 0); simpl; [done|].
  destruct verbose; simpl.
  - destruct (print_analysis _ _) as [[]| |]; simpl; [|done..].
    intros [= <- <-]. by exists v.
  - intros [= <- <-]. by exists v.
Qed.

(** Without a restart to run there is no score to take the minimum of. *)
Lemma hill_climbing_with_random_restart_none (self : optimizer)
    (num_restarts max_iterations : Z) (verbose : bool) (g : rng) :
  num_restarts < 1 →
  hill_climbing_with_random_restart list_of_set self num_restarts
    max_iterations verbose g = Raise ValueError.
Proof.
  intros Hn. unfold hill_climbing_with_random_restart.
  by rewrite seqZ_nil by lia.
Qed.

Hypothesis list_of_set_perm : ∀ l, list_of_set l ≡ₚ remove_dups l.

Lemma list_of_set_nil : list_of_set [] = [].
Proof. apply Permutation_nil_r. by rewrite list_of_set_perm. Qed.

Lemma generate_random_wifi_valid (self : optimizer) (g g' : rng) (l : list pos) :
  generate_random_wifi list_of_set self g = Ok (l, g') →
  Forall (in_grid self) l ∧ NoDup l.
Proof.
  unfold generate_random_wifi.
  destruct (random_positions _ _ _) as [[ps g1]| |] eqn:Hps; simpl; [|done..].
  intros [= <- _]. rewrite !list_of_set_perm.
  apply random_positions_in_range in Hps as [_ Hall].
  split; [|apply NoDup_remove_dups].
  apply Forall_forall. intros p Hp. rewrite elem_of_remove_dups in Hp.
  rewrite Forall_forall in Hall. exact (Hall p Hp).
Qed.

Lemma generate_random_wifi_Ok (self : optimizer) (g : rng) :
  1 ≤ grid_size self → 1 ≤ num_wifi self →
  ∃ l g', generate_random_wifi list_of_set self g = Ok (l, g') ∧ l ≠ [].
Proof.
  intros Hgs Hnw. unfold generate_random_wifi.
  destruct (random_positions_Ok (grid_size self) (Z.to_nat (num_wifi self)) g Hgs)
    as (ps & g' & Hps).
  rewrite Hps. simpl. exists (list_of_set ps), g'. split; [done|].
  apply random_positions_in_range in Hps as [Hlen _].
  destruct ps as [|p ps]; [simpl in Hlen; lia|].
  intros Hnil. pose proof (list_of_set_perm (p :: ps)) as Hperm.
  rewrite Hnil in Hperm. apply Permutation_nil_l in Hperm.
  assert (p ∈ remove_dups (p :: ps)) as Hin by (apply elem_of_remove_dups; left).
  rewrite <-Hperm in Hin. by apply elem_of_nil in Hin.
Qed.

Lemma generate_random_wifi_none (self : optimizer) (g : rng) :
  num_wifi self ≤ 0 → generate_random_wifi list_of_set self g = Ok ([], g).
Proof.
  intros Hnw. unfold generate_random_wifi.
  replace (Z.to_nat (num_wifi self)) with 0%nat by lia. simpl.
  by rewrite list_of_set_nil.
Qed.

Lemma generate_random_wifi_empty_grid (self : optimizer) (g : rng) :
  grid_size self ≤ 0 → 1 ≤ num_wifi self →
  generate_random_wifi list_of_set self g = Raise ValueError.
Proof.
  intros Hgs Hnw. unfold generate_random_wifi.
  by rewrite random_positions_empty_grid by lia.
Qed.

Lemma init_none (gs nc nw : Z) (g : rng) :
  nc ≤ 0 →
  init list_of_set gs nc nw g
  = Ok ({| grid_size := gs; num_computers := nc; num_wifi := nw;
           computers := [] |}, g).
Proof.
  intros Hnc. unfold init, generate_random_computers. simpl.
  replace (Z.to_nat nc) with 0%nat by lia. simpl.
  by rewrite list_of_set_nil.
Qed.

Lemma init_empty_grid (gs nc nw : Z) (g : rng) :
  gs ≤ 0 → 1 ≤ nc → init list_of_set gs nc nw g = Raise ValueError.
Proof.
  intros Hgs Hnc. unfold init, generate_random_computers. simpl.
  by rewrite random_positions_empty_grid by lia.
Qed.

Lemma restart_body_Ok (self : optimizer) (max_iterations restart : Z)
    (v : locals) (g : rng) :
  1 ≤ grid_size self → 1 ≤ num_wifi self →
  ∃ v' g', restart_body list_of_set self max_iterations restart (v, g)
           = Ok (v', g').
Proof.
  intros Hgs Hnw. unfold restart_body.
  destruct (generate_random_wifi_Ok self g Hgs Hnw) as (w & g1 & -> & Hne).
  simpl.
  destruct (hill_climbing_total self w max_iterations) as [r ->]; [by left|].
  simpl. destruct (exceeds _ _); by do 2 eexists.
Qed.

Lemma restart_loop_Ok (self : optimizer) (max_iterations : Z) (xs : list Z)
    (v : locals) (g : rng) :
  1 ≤ grid_size self → 1 ≤ num_wifi self →
  ∃ v' g', for_each (restart_body list_of_set self max_iterations) xs (v, g)
           = Ok (v', g').
Proof.
  intros Hgs Hnw. revert v g. induction xs as [|x xs IH]; intros v g.
  - by do 2 eexists.
  - cbn [for_each].
    destruct (restart_body_Ok self max_iterations x v g Hgs Hnw)
      as (v1 & g1 & ->).
    apply IH.
Qed.

(** On a proper grid with a Wi-Fi to place and a restart to run, the
    controller returns; with [verbose] it also needs a computer, for the
    average its report divides by their number. *)
Lemma hill_climbing_with_random_restart_Ok (self : optimizer)
    (num_restarts max_iterations : Z) (verbose : bool) (g : rng) :
  1 ≤ grid_size self → 1 ≤ num_wifi self → 1 ≤ num_restarts →
  verbose = false ∨ computers self ≠ [] →
  ∃ res g', hill_climbing_with_random_restart list_of_set self num_restarts
              max_iterations verbose g = Ok (res, g').
Proof.
  intros Hgs Hnw Hn Hv. unfold hill_climbing_with_random_restart.
  destruct (restart_loop_Ok self max_iterations (seqZ 0 num_restarts)
              initial_locals g Hgs Hnw) as (v & g' & Hloop).
  rewrite Hloop. cbn [mbind result_bind].
  replace num_restarts with (Z.of_nat (Z.to_nat num_restarts)) in Hloop by lia.
  apply restart_loop_inv in Hloop as (Hlen & Hbest & Hruns);
    [|done|done|constructor].
  simpl in Hlen. unfold tracks_best in Hbest.
  destruct (all_results v) as [|a l] eqn:Hres; [simpl in Hlen; lia|].
  destruct Hbest as (k & r & (Hk & _) & _ & Hsol & _). simpl.
  destruct (Z.eqb_spec num_restarts 0) as [|_]; [lia|]. simpl.
  destruct Hv as [->|Hc]; [by do 2 eexists|].
  destruct verbose; [|by do 2 eexists].
  unfold print_analysis. simpl.
  destruct (Z.eqb_spec num_restarts 0) as [|_]; [lia|]. simpl.
  rewrite Hsol. simpl.
  rewrite Forall_forall in Hruns.
  destruct (Hruns r) as (w & g0 & g1 & Hw & Hr);
    [by eapply list_elem_of_lookup_2|].
  assert (wifi_positions r ≠ []) as Hne.
  { apply hill_climbing_length in Hr.
    destruct (generate_random_wifi_Ok self g0 Hgs Hnw) as (w' & g1' & Hw' & Hne).
    rewrite Hw in Hw'. injection Hw' as <- _.
    destruct w; [done|]. by destruct (wifi_positions r). }
  destruct (mapM_total
              (λ computer, py_min (manhattan_distance computer <$> wifi_positions r))
              (computers self)) as [ds ->].
  { apply Forall_forall. intros c _. apply py_min_Ok.
    by destruct (wifi_positions r). }
  simpl. destruct (computers self); [done|]. simpl. by do 2 eexists.
Qed.

End Restart.

(** Every state of the trace carries the objective of its own placement. *)
Lemma adopted_scores (self : optimizer) (max_iterations : Z) (fuel : nat)
    (st : Dict) :
  calculate_objective self (wifi_positions st) = Ok (score st) →
  Forall (λ a, calculate_objective self (wifi_positions a) = Ok (score a))
         (adopted self max_iterations fuel st).
Proof.
  revert st. induction fuel as [|fuel IH]; intros st Hst; simpl.
  { by repeat constructor. }
  constructor; [done|].
  destruct (Z.ltb_spec (iterations st) max_iterations) as [Hlt|Hge]; [|done].
  destruct (hill_climbing_body self st) as [[|st']| |] eqn:Hb; try done.
  apply IH. by apply hill_climbing_body_evaluable in Hb as [_ ?].
Qed.

(** * Main results *)

Lemma c1_step1 (cs : list pos) (nc nw : Z) :
  cs = [(0, 0); (0, 2)] ∨ cs = [(0, 2); (0, 0)] →
  hill_climbing_body
    {| grid_size := 3; num_computers := nc; num_wifi := nw; computers := cs |}
    (initial_state [(2, 2)] (-6))
  = Ok (Continue {| wifi_positions := [(1, 2)]; score := -4;
                    iterations := 1; improvements := 1 |}).
Proof. by intros [-> | ->]; vm_compute. Qed.

Lemma c1_step2 (cs : list pos) (nc nw : Z) :
  cs = [(0, 0); (0, 2)] ∨ cs = [(0, 2); (0, 0)] →
  hill_climbing_body
    {| grid_size := 3; num_computers := nc; num_wifi := nw; computers := cs |}
    {| wifi_positions := [(1, 2)]; score := -4; iterations := 1; improvements := 1 |}
  = Ok (Continue {| wifi_positions := [(0, 2)]; score := -2;
                    iterations := 2; improvements := 2 |}).
Proof. by intros [-> | ->]; vm_compute. Qed.

Lemma c1_step3 (cs : list pos) (nc nw : Z) :
  cs = [(0, 0); (0, 2)] ∨ cs = [(0, 2); (0, 0)] →
  hill_climbing_body
    {| grid_size := 3; num_computers := nc; num_wifi := nw; computers := cs |}
    {| wifi_positions := [(0, 2)]; score := -2; iterations := 2; improvements := 2 |}
  = Ok Break.
Proof. by intros [-> | ->]; vm_compute. Qed.

(** C1. With clients {(0,0), (0,2)} on a 3x3 grid, the climb from [(2,2)]
    under a step cap of at least 2 returns placement [(0,2)], score -2,
    two steps and two improvements. *)
Theorem C1_worked_scenario (cs : list pos) (nc nw max_iterations : Z) :
  cs ≡ₚ [(0, 0); (0, 2)] →
  2 ≤ max_iterations →
  hill_climbing
    {| grid_size := 3; num_computers := nc; num_wifi := nw; computers := cs |}
    [(2, 2)] max_iterations
  = Ok {| wifi_positions := [(0, 2)]; score := -2;
          iterations := 2; improvements := 2 |}.
Proof.
  intros Hperm Hmax.
  assert (cs = [(0, 0); (0, 2)] ∨ cs = [(0, 2); (0, 0)]) as Hcs.
  { symmetry in Hperm. by apply Permutation_length_2_inv in Hperm. }
  rewrite hill_climbing_unfold.
  assert (calculate_objective
            {| grid_size := 3; num_computers := nc; num_wifi := nw;
               computers := cs |} [(2, 2)] = Ok (-6)) as ->.
  { by destruct Hcs as [-> | ->]. }
  cbn [mbind result_bind].
  destruct (Z.to_nat max_iterations) as [|[|k]] eqn:Hk; [lia..|].
  erewrite hill_climbing_loop_adopt;
    [|split; [simpl; lia|by apply c1_step1]].
  erewrite hill_climbing_loop_adopt;
    [|split; [simpl; lia|by apply c1_step2]].
  apply hill_climbing_loop_stop. right. by apply c1_step3.
Qed.

Lemma C1_worked_scenario_witness :
  [(0, 0); (0, 2)] ≡ₚ [(0, 0); (0, 2)] ∧ 2 ≤ 2
  ∧ hill_climbing c1_self [(2, 2)] 2
    = Ok {| wifi_positions := [(0, 2)]; score := -2;
            iterations := 2; improvements := 2 |}.
Proof.
  split; [reflexivity|]. split; [lia|].
  apply (C1_worked_scenario [(0, 0); (0, 2)] 2 1 2); [reflexivity|lia].
Defined.

(** C2. The climber is not total: on the empty placement, with a client to
    serve, [min] has nothing to range over and the call raises [ValueError]
    instead of returning a result with zero improvements.  The generator
    hands out that placement when there is no Wi-Fi to place. *)
Theorem C2_empty_placement_raises :
  generate_random_wifi remove_dups c2_self counting_tape = Ok ([], counting_tape)
  ∧ hill_climbing c2_self [] 500 = Raise ValueError.
Proof. split; reflexivity. Qed.

(** C4. Along one run the scores of the successively adopted placements,
    from the initial placement to the one returned, strictly increase:
    every move of the trace adopts a neighbour whose score is strictly
    greater than the current one. *)
Theorem C4_scores_strictly_increase (self : optimizer) (initial_wifi : list pos)
    (max_iterations : Z) (d : Dict) :
  hill_climbing self initial_wifi max_iterations = Ok d →
  let tr := hill_climbing_trace self initial_wifi max_iterations in
  (∃ s, calculate_objective self initial_wifi = Ok s
        ∧ head tr = Some (initial_state initial_wifi s))
  ∧ last tr = Some d
  ∧ Forall (λ a, calculate_objective self (wifi_positions a) = Ok (score a)) tr
  ∧ (∀ i a b, tr !! i = Some a → tr !! S i = Some b →
              adopts self max_iterations a b ∧ score a < score b)
  ∧ StronglySorted Z.lt (score <$> tr).
Proof.
  rewrite hill_climbing_unfold. unfold hill_climbing_trace.
  destruct (calculate_objective self initial_wifi) as [s| |] eqn:Hs; [|done..].
  cbn [mbind result_bind]. intros Hloop. split_and!.
  - exists s. split; [done|]. apply adopted_head.
  - by apply adopted_last in Hloop as [? _].
  - by apply adopted_scores.
  - intros i a b Ha Hb.
    pose proof (adopted_chain _ _ _ _ _ _ _ Ha Hb) as Hab.
    split; [done|]. by eapply adopts_score_lt.
  - apply adopted_sorted.
Qed.

Lemma C4_scores_strictly_increase_witness :
  let d := {| wifi_positions := [(0, 2)]; score := -2;
              iterations := 2; improvements := 2 |} in
  hill_climbing c1_self [(2, 2)] 5 = Ok d
  ∧ last (hill_climbing_trace c1_self [(2, 2)] 5) = Some d
  ∧ StronglySorted Z.lt (score <$> hill_climbing_trace c1_self [(2, 2)] 5).
Proof.
  assert (hill_climbing c1_self [(2, 2)] 5
          = Ok {| wifi_positions := [(0, 2)]; score := -2;
                  iterations := 2; improvements := 2 |}) as Hrun
    by (vm_compute; reflexivity).
  pose proof (C4_scores_strictly_increase c1_self [(2, 2)] 5 _ Hrun)
    as (_ & Hlast & _ & _ & Hsorted).
  split; [exact Hrun|]. split; [exact Hlast|exact Hsorted].
Defined.

(** C5. The neighbour a step adopts is the first, in the order
    [get_neighbors] enumerates them (Wi-Fi index first, then the fixed
    order of directions), of the neighbours whose score is maximal: no
    neighbour scores higher and every earlier one scores strictly lower. *)
Theorem C5_first_best_neighbor (self : optimizer) (max_iterations : Z)
    (st st' : Dict) :
  adopts self max_iterations st st' →
  let neighbors := get_neighbors self (wifi_positions st) in
  neighbors = omap (candidate self (wifi_positions st))
                   (enumeration (wifi_positions st))
  ∧ ∃ k, neighbors !! k = Some (wifi_positions st')
         ∧ calculate_objective self (wifi_positions st') = Ok (score st')
         ∧ ∀ j n, neighbors !! j = Some n →
                  ∃ s, calculate_objective self n = Ok s
                       ∧ s ≤ score st'
                       ∧ ((j < k)%nat → s < score st').
Proof.
  intros [_ Hb]. split; [apply get_neighbors_enumeration|].
  apply hill_climbing_body_Continue in Hb
    as (scored & k & Hsc & (Hk & Hmax & Hlt) & _).
  apply scored_neighbors_inv in Hsc. exists k.
  destruct (Forall2_lookup_r _ _ _ _ _ Hsc Hk) as (n & Hn & Hn1 & Hn2).
  simpl in Hn1, Hn2. injection Hn1 as <-. split_and!; [done..|].
  intros j n Hj.
  destruct (Forall2_lookup_l _ _ _ _ _ Hsc Hj) as ([n' s] & Hp & _ & Hs).
  exists s. split_and!; [done| |].
  - apply (Hmax (n', s)). by eapply list_elem_of_lookup_2.
  - intros Hjk. by apply (Hlt j (n', s)).
Qed.

Lemma C5_first_best_neighbor_witness :
  get_neighbors c5_self [(0, 0)] = [[(1, 0)]; [(0, 1)]]
  ∧ calculate_objective c5_self [(1, 0)] = calculate_objective c5_self [(0, 1)]
  ∧ ∃ k, get_neighbors c5_self [(0, 0)] !! k = Some [(1, 0)]
         ∧ calculate_objective c5_self [(1, 0)] = Ok (-1)
         ∧ ∀ j n, get_neighbors c5_self [(0, 0)] !! j = Some n →
                  ∃ s, calculate_objective c5_self n = Ok s
                       ∧ s ≤ -1 ∧ ((j < k)%nat → s < -1).
Proof.
  split; [reflexivity|]. split; [reflexivity|].
  assert (adopts c5_self 5
            (initial_state [(0, 0)] (-2))
            {| wifi_positions := [(1, 0)]; score := -1;
               iterations := 1; improvements := 1 |}) as Had.
  { split; [simpl; lia|vm_compute; reflexivity]. }
  exact (proj2 (C5_first_best_neighbor c5_self 5 _ _ Had)).
Defined.

(** C6. In every result of the climber the step counter equals the
    improvement counter, and both count the adopted moves of the run: the
    last, non-improving evaluation is counted by neither. *)
Theorem C6_steps_equal_improvements (self : optimizer) (initial_wifi : list pos)
    (max_iterations : Z) (d : Dict) :
  hill_climbing self initial_wifi max_iterations = Ok d →
  iterations d = improvements d
  ∧ iterations d
    = Z.of_nat (length (hill_climbing_trace self initial_wifi max_iterations)) - 1.
Proof.
  rewrite hill_climbing_unfold. unfold hill_climbing_trace.
  destruct (calculate_objective self initial_wifi) as [s| |]; [|done..].
  cbn [mbind result_bind].
  intros [Hit Him]%hill_climbing_loop_counters.
  change (iterations (initial_state initial_wifi s)) with 0 in Hit.
  change (improvements (initial_state initial_wifi s)) with 0 in Him. lia.
Qed.

Lemma C6_steps_equal_improvements_witness :
  let d := {| wifi_positions := [(0, 2)]; score := -2;
              iterations := 2; improvements := 2 |} in
  hill_climbing c1_self [(2, 2)] 5 = Ok d
  ∧ iterations d = improvements d
  ∧ iterations d
    = Z.of_nat (length (hill_climbing_trace c1_self [(2, 2)] 5)) - 1.
Proof.
  assert (hill_climbing c1_self [(2, 2)] 5
          = Ok {| wifi_positions := [(0, 2)]; score := -2;
                  iterations := 2; improvements := 2 |}) as Hrun
    by (vm_compute; reflexivity).
  split; [exact Hrun|].
  exact (C6_steps_equal_improvements c1_self [(2, 2)] 5 _ Hrun).
Defined.

(** C9. Under a cap [max_iterations >= 0] a run always ends, the fuel of the
    model never running out: it returns a result whose step count is at most
    the cap, or, on the empty placement with a client to serve, it ends by
    raising [ValueError] before the first step. *)
Theorem C9_terminates_within_cap (self : optimizer) (initial_wifi : list pos)
    (max_iterations : Z) :
  0 ≤ max_iterations →
  (∃ d, hill_climbing self initial_wifi max_iterations = Ok d
        ∧ 0 ≤ iterations d ≤ max_iterations)
  ∨ (initial_wifi = [] ∧ computers self ≠ []
     ∧ hill_climbing self initial_wifi max_iterations = Raise ValueError).
Proof.
  intros Hcap.
  destruct (decide (initial_wifi = [] ∧ computers self ≠ [])) as [[-> Hc]|Hev].
  { right. split_and!; [done..|]. by apply hill_climbing_empty. }
  left.
  destruct (hill_climbing_total self initial_wifi max_iterations) as [d Hd].
  { destruct initial_wifi; [|by left]. right.
    destruct (computers self); [done|]. naive_solver. }
  exists d. split; [done|]. revert Hd. rewrite hill_climbing_unfold.
  destruct (calculate_objective self initial_wifi) as [s| |]; [|done..].
  apply (hill_climbing_loop_invariant self max_iterations
           (λ st, 0 ≤ iterations st ≤ max_iterations)); [|simpl; lia].
  intros st st' Hst [Hlt Hb].
  apply hill_climbing_body_Continue in Hb as (_ & _ & _ & _ & _ & Hit & _). lia.
Qed.

Lemma C9_terminates_within_cap_witness :
  0 ≤ 1
  ∧ ((∃ d, hill_climbing c1_self [(2, 2)] 1 = Ok d ∧ 0 ≤ iterations d ≤ 1)
     ∨ ([(2, 2)] = @nil pos ∧ computers c1_self ≠ []
        ∧ hill_climbing c1_self [(2, 2)] 1 = Raise ValueError)).
Proof.
  split; [lia|]. apply (C9_terminates_within_cap c1_self [(2, 2)] 1). lia.
Defined.

(** C10. From a non-empty starting placement the climber returns a result
    whose score is the objective of the placement it returns. *)
Theorem C10_score_matches_placement (self : optimizer) (initial_wifi : list pos)
    (max_iterations : Z) :
  initial_wifi ≠ [] →
  ∃ d, hill_climbing self initial_wifi max_iterations = Ok d
       ∧ calculate_objective self (wifi_positions d) = Ok (score d).
Proof.
  intros Hne.
  destruct (hill_climbing_total self initial_wifi max_iterations) as [d Hd];
    [by left|].
  exists d. split; [done|]. revert Hd. rewrite hill_climbing_unfold.
  destruct (calculate_objective self initial_wifi) as [s| |] eqn:Hs; [|done..].
  apply (hill_climbing_loop_invariant self max_iterations
           (λ st, calculate_objective self (wifi_positions st) = Ok (score st)));
    [|done].
  by intros st st' _ [_ [_ ?]%hill_climbing_body_evaluable].
Qed.

Lemma C10_score_matches_placement_witness :
  [(2, 2)] ≠ @nil pos
  ∧ ∃ d, hill_climbing c1_self [(2, 2)] 500 = Ok d
         ∧ calculate_objective c1_self (wifi_positions d) = Ok (score d).
Proof.
  split; [discriminate|].
  apply (C10_score_matches_placement c1_self [(2, 2)] 500). discriminate.
Defined.

(** C7. Every placement the random generator returns, and every neighbour
    generated from a placement that lies on the grid, has all its positions
    on the grid and no position twice. *)
Theorem C7_placements_valid (list_of_set : list pos → list pos)
    (self : optimizer) (p : list pos) :
  (∀ l, list_of_set l ≡ₚ remove_dups l) →
  produced list_of_set self p →
  Forall (in_grid self) p ∧ NoDup p.
Proof.
  intros Hperm [(g & g' & Hgen)|(l & Hl & Hn)].
  - by eapply generate_random_wifi_valid.
  - apply elem_of_get_neighbors in Hn as (i & xy & d & _ & _ & Hm).
    apply move_Some in Hm as (-> & Hin & Hnd). split; [|done].
    rewrite Forall_forall in Hl. apply Forall_forall.
    intros q Hq. apply list_elem_of_lookup in Hq as [j Hj].
    destruct (decide (i = j)) as [<-|Hij].
    + assert (i < length l)%nat as Hi.
      { apply lookup_lt_Some in Hj. by rewrite length_insert in Hj. }
      rewrite list_lookup_insert_eq in Hj by done. by injection Hj as <-.
    + rewrite list_lookup_insert_ne in Hj by done.
      apply Hl. by eapply list_elem_of_lookup_2.
Qed.

Lemma C7_placements_valid_witness :
  (∀ l : list pos, remove_dups l ≡ₚ remove_dups l)
  ∧ produced remove_dups c7_self [(0, 1); (2, 0); (1, 2)]
  ∧ produced remove_dups c7_self [(0, 0); (2, 0); (1, 2)]
  ∧ (Forall (in_grid c7_self) [(0, 1); (2, 0); (1, 2)]
     ∧ NoDup [(0, 1); (2, 0); (1, 2)])
  ∧ (Forall (in_grid c7_self) [(0, 0); (2, 0); (1, 2)]
     ∧ NoDup [(0, 0); (2, 0); (1, 2)]).
Proof.
  assert (produced remove_dups c7_self [(0, 1); (2, 0); (1, 2)]) as Hgen.
  { left. exists counting_tape. eexists. reflexivity. }
  assert (produced remove_dups c7_self [(0, 0); (2, 0); (1, 2)]) as Hnb.
  { right. exists [(0, 1); (2, 0); (1, 2)]. split.
    - repeat constructor; simpl; lia.
    - apply elem_of_get_neighbors. exists 0%nat, (0, 1), (0, -1).
      split; [reflexivity|]. split; [|reflexivity].
      do 2 right. left. }
  split; [reflexivity|]. split; [exact Hgen|]. split; [exact Hnb|]. split.
  - exact (C7_placements_valid remove_dups c7_self _ (λ l, reflexivity _) Hgen).
  - exact (C7_placements_valid remove_dups c7_self _ (λ l, reflexivity _) Hnb).
Defined.

(** C8. With at least one restart, the controller records one climb per
    restart, and the best score it reports is the score of the first of the
    recorded climbs that no other outscores: it bounds every recorded score,
    every earlier climb scores strictly lower (a later tie does not replace
    the incumbent), and the restart number reported is the 1-based index of
    that climb, whose placement is the one reported. *)
Theorem C8_best_of_restarts (list_of_set : list pos → list pos)
    (self : optimizer) (num_restarts max_iterations : Z) (verbose : bool)
    (g g' : rng) (res : Results.t) :
  1 ≤ num_restarts →
  hill_climbing_with_random_restart list_of_set self num_restarts
    max_iterations verbose g = Ok (res, g') →
  length (Results.all_results res) = Z.to_nat num_restarts
  ∧ Forall (is_run list_of_set self max_iterations) (Results.all_results res)
  ∧ ∃ k r, first_max score (Results.all_results res) k r
           ∧ Results.best_score res = Int (score r)
           ∧ Results.best_restart_num res = Z.of_nat k + 1
           ∧ Results.best_wifi_positions res = Some (wifi_positions r).
Proof.
  intros Hn (v & Hloop & Hsol & Hbs & Hnum & Hres)%hill_climbing_with_random_restart_inv.
  replace num_restarts with (Z.of_nat (Z.to_nat num_restarts)) in Hloop by lia.
  apply restart_loop_inv in Hloop as (Hlen & Hbest & Hruns);
    [|done|done|constructor].
  simpl in Hlen. rewrite Hres, Hsol, Hbs, Hnum. split_and!; [done..|].
  unfold tracks_best in Hbest.
  destruct (all_results v) as [|a l] eqn:Hv; [simpl in Hlen; lia|].
  destruct Hbest as (k & r & ? & ? & ? & ?). by exists k, r.
Qed.

Lemma C8_best_of_restarts_witness :
  1 ≤ 3
  ∧ ∃ res g',
      hill_climbing_with_random_restart remove_dups c7_self 3 500 true
        counting_tape = Ok (res, g')
      ∧ length (Results.all_results res) = 3%nat
      ∧ Forall (is_run remove_dups c7_self 500) (Results.all_results res)
      ∧ ∃ k r, first_max score (Results.all_results res) k r
               ∧ Results.best_score res = Int (score r)
               ∧ Results.best_restart_num res = Z.of_nat k + 1
               ∧ Results.best_wifi_positions res = Some (wifi_positions r).
Proof.
  split; [lia|].
  assert (∃ res g',
            hill_climbing_with_random_restart remove_dups c7_self 3 500 true
              counting_tape = Ok (res, g')) as (res & g' & Hrun).
  { eexists _, _. vm_compute. reflexivity. }
  exists res, g'. split; [exact Hrun|].
  apply (C8_best_of_restarts remove_dups c7_self 3 500 true counting_tape g' res);
    [lia|exact Hrun].
Defined.

(** C3. No configuration is validated.  A restart count below 1 does end in
    an error, the [ValueError] of [min] over the empty list of
    scores, raised after the loop has run no restart.  A grid size below 1
    makes the random draw raise [ValueError], at construction if there is a
    client to draw and in the generator if there is a Wi-Fi to draw.  A
    client or Wi-Fi count below 1 is accepted as if it were 0: construction
    returns an instance without clients, the generator an empty placement. *)
Theorem C3_configuration_errors (list_of_set : list pos → list pos) :
  (∀ l, list_of_set l ≡ₚ remove_dups l) →
  (∀ self num_restarts max_iterations verbose g,
     num_restarts < 1 →
     hill_climbing_with_random_restart list_of_set self num_restarts
       max_iterations verbose g = Raise ValueError)
  ∧ (∀ gs nc nw g,
       gs ≤ 0 → 1 ≤ nc → init list_of_set gs nc nw g = Raise ValueError)
  ∧ (∀ self g,
       grid_size self ≤ 0 → 1 ≤ num_wifi self →
       generate_random_wifi list_of_set self g = Raise ValueError)
  ∧ (∀ gs nc nw g,
       nc ≤ 0 →
       init list_of_set gs nc nw g
       = Ok ({| grid_size := gs; num_computers := nc; num_wifi := nw;
                computers := [] |}, g))
  ∧ (∀ self g,
       num_wifi self ≤ 0 →
       generate_random_wifi list_of_set self g = Ok ([], g)).
Proof.
  intros Hperm. split_and!.
  - intros. by apply hill_climbing_with_random_restart_none.
  - intros. by apply init_empty_grid.
  - intros. by apply generate_random_wifi_empty_grid.
  - intros. by apply init_none.
  - intros. by apply generate_random_wifi_none.
Qed.

Lemma C3_configuration_errors_witness :
  (∀ l : list pos, remove_dups l ≡ₚ remove_dups l)
  ∧ hill_climbing_with_random_restart remove_dups c1_self 0 500 true
      counting_tape = Raise ValueError
  ∧ init remove_dups 0 2 1 counting_tape = Raise ValueError
  ∧ init remove_dups 0 (-2) 1 counting_tape
    = Ok ({| grid_size := 0; num_computers := -2; num_wifi := 1;
             computers := [] |}, counting_tape).
Proof.
  pose proof (C3_configuration_errors remove_dups (λ l, reflexivity _))
    as (Hrestart & Hgrid & _ & Hclients & _).
  split; [reflexivity|]. split_and!.
  - apply Hrestart. lia.
  - apply Hgrid; lia.
  - apply Hclients. lia.
Defined.

(** C3, the case that does not raise: a negative client count and a negative
    Wi-Fi count are not rejected.  Construction succeeds with no client, and the search
    then runs its restart and returns a result. *)
Lemma C3_counterexample :
  init remove_dups 3 (-1) (-1) counting_tape
  = Ok ({| grid_size := 3; num_computers := -1; num_wifi := -1;
           computers := [] |}, counting_tape)
  ∧ ∃ res,
      hill_climbing_with_random_restart remove_dups
        {| grid_size := 3; num_computers := -1; num_wifi := -1;
           computers := [] |} 1 500 false counting_tape
      = Ok (res, counting_tape).
Proof. split; [reflexivity|]. eexists. vm_compute. reflexivity. Qed.

(** * Further properties *)

(** ** Distance and objective *)

Lemma foldl_min_spec (x : Z) (xs : list Z) :
  foldl Z.min x xs ∈ x :: xs ∧ Forall (λ y, foldl Z.min x xs ≤ y) (x :: xs).
Proof.
  revert x. induction xs as [|y xs IH]; intros x; simpl.
  - split; [left|]. by repeat constructor.
  - destruct (IH (Z.min x y)) as [Hin Hall].
    apply Forall_cons in Hall as [Hm Hall]. split.
    + apply elem_of_cons in Hin as [Hin|Hin]; [|by do 2 right].
      rewrite Hin. destruct (Z.min_spec x y) as [[_ ->]|[_ ->]];
        [left|right; left].
    + constructor; [lia|]. constructor; [lia|done].
Qed.

Lemma py_min_spec (l : list Z) (m : Z) :
  py_min l = Ok m → m ∈ l ∧ Forall (λ y, m ≤ y) l.
Proof.
  destruct l as [|x xs]; [done|]. intros [= <-]. apply foldl_min_spec.
Qed.

Lemma foldl_add_shift (a : Z) (l : list Z) : foldl Z.add a l = a + py_sum l.
Proof.
  unfold py_sum. revert a. induction l as [|x l IH]; intros a; simpl; [lia|].
  rewrite (IH (a + x)), (IH (0 + x)). lia.
Qed.

Lemma py_sum_cons (x : Z) (l : list Z) : py_sum (x :: l) = x + py_sum l.
Proof. unfold py_sum at 1. simpl. by rewrite foldl_add_shift. Qed.

Lemma py_sum_perm (l l' : list Z) : l ≡ₚ l' → py_sum l = py_sum l'.
Proof.
  induction 1 as [|x l l' _ IH|x y l|l1 l2 l3 _ IH1 _ IH2]; [done|..].
  - by rewrite !py_sum_cons, IH.
  - rewrite !py_sum_cons. lia.
  - congruence.
Qed.

Lemma manhattan_distance_nonneg (p q : pos) : 0 ≤ manhattan_distance p q.
Proof. unfold manhattan_distance. lia. Qed.

Lemma manhattan_distance_zero (p q : pos) : manhattan_distance p q = 0 ↔ p = q.
Proof.
  unfold manhattan_distance. destruct p as [x y], q as [x' y']. simpl. split.
  - intros H. f_equal; lia.
  - intros [= -> ->]. lia.
Qed.

Lemma nearest_spec (wifi : list pos) (c : pos) :
  wifi ≠ [] →
  (∃ w, w ∈ wifi ∧ nearest wifi c = manhattan_distance c w)
  ∧ ∀ w, w ∈ wifi → nearest wifi c ≤ manhattan_distance c w.
Proof.
  intros Hne. unfold nearest.
  destruct (manhattan_distance c <$> wifi) as [|x xs] eqn:Hd.
  { by apply fmap_nil_inv in Hd. }
  destruct (foldl_min_spec x xs) as [Hin Hall]. rewrite <-Hd in Hin, Hall.
  split.
  - apply list_elem_of_fmap in Hin as (w & Hw & Hin). by exists w.
  - intros w Hw. rewrite Forall_forall in Hall. apply Hall.
    apply list_elem_of_fmap. by exists w.
Qed.

(** On a non-empty placement the objective is the negated sum, over the
    computers, of the distance to the nearest Wi-Fi. *)
Lemma calculate_objective_nonempty (self : optimizer) (wifi : list pos) :
  wifi ≠ [] →
  calculate_objective self wifi
  = Ok (- py_sum (nearest wifi <$> computers self)).
Proof.
  intros Hne. unfold calculate_objective.
  rewrite (mapM_Ok_intro _ _ (nearest wifi <$> computers self)); [done|].
  apply Forall2_fmap_r, Forall_Forall2_diag, Forall_forall. intros c _.
  unfold compose, nearest, py_min.
  destruct (manhattan_distance c <$> wifi) eqn:Hd; [|done].
  by apply fmap_nil_inv in Hd.
Qed.

Lemma calculate_objective_no_computers (self : optimizer) (wifi : list pos) :
  computers self = [] → calculate_objective self wifi = Ok 0.
Proof. intros Hc. unfold calculate_objective. by rewrite Hc. Qed.

Lemma py_sum_nonneg (l : list Z) : Forall (λ x, 0 ≤ x) l → 0 ≤ py_sum l.
Proof.
  induction 1 as [|x l Hx _ IH]; [done|]. rewrite py_sum_cons. lia.
Qed.

Lemma py_sum_zero (l : list Z) :
  Forall (λ x, 0 ≤ x) l → py_sum l = 0 → Forall (λ x, x = 0) l.
Proof.
  induction 1 as [|x l Hx Hl IH]; [done|]. rewrite py_sum_cons.
  intros Hs. pose proof (py_sum_nonneg l Hl). constructor; [lia|].
  apply IH. lia.
Qed.

Lemma py_sum_le (l l' : list Z) : Forall2 Z.le l l' → py_sum l ≤ py_sum l'.
Proof.
  induction 1 as [|x y l l' Hxy _ IH]; [done|]. rewrite !py_sum_cons. lia.
Qed.

Lemma nearest_nonneg (wifi : list pos) (c : pos) : 0 ≤ nearest wifi c.
Proof.
  destruct wifi as [|w wifi]; [done|].
  destruct (nearest_spec (w :: wifi) c) as [(w' & _ & ->) _]; [done|].
  apply manhattan_distance_nonneg.
Qed.

Lemma nearest_subset (wifi wifi' : list pos) (c : pos) :
  wifi ≠ [] → (∀ w, w ∈ wifi → w ∈ wifi') → nearest wifi' c ≤ nearest wifi c.
Proof.
  intros Hne Hsub.
  destruct (nearest_spec wifi c Hne) as [(w & Hw & ->) _].
  apply nearest_spec; [|by apply Hsub].
  intros ->. specialize (Hsub w Hw). by apply elem_of_nil in Hsub.
Qed.

Lemma calculate_objective_cases (self : optimizer) (wifi : list pos) :
  (wifi = [] ∧ computers self ≠ []
   ∧ calculate_objective self wifi = Raise ValueError)
  ∨ (computers self = [] ∧ calculate_objective self wifi = Ok 0)
  ∨ (wifi ≠ [] ∧ calculate_objective self wifi
                 = Ok (- py_sum (nearest wifi <$> computers self))).
Proof.
  destruct (decide (computers self = [])) as [Hc|Hc].
  { right; left. split; [done|]. by apply calculate_objective_no_computers. }
  destruct (decide (wifi = [])) as [->|Hw].
  - left. split_and!; [done..|]. by apply calculate_objective_empty.
  - right; right. split; [done|]. by apply calculate_objective_nonempty.
Qed.

(** X1. The Manhattan distance is a metric on positions: non-negative, zero
    exactly between equal positions, symmetric, and subject to the triangle
    inequality. *)
Theorem X1_manhattan_distance_metric (p q r : pos) :
  0 ≤ manhattan_distance p q
  ∧ (manhattan_distance p q = 0 ↔ p = q)
  ∧ manhattan_distance p q = manhattan_distance q p
  ∧ manhattan_distance p r ≤ manhattan_distance p q + manhattan_distance q r.
Proof.
  split_and!.
  - apply manhattan_distance_nonneg.
  - apply manhattan_distance_zero.
  - unfold manhattan_distance. lia.
  - unfold manhattan_distance. lia.
Qed.

(** X2. A score is never positive, and it is 0 exactly when every computer
    stands on a Wi-Fi position. *)
Theorem X2_objective_sign (self : optimizer) (wifi : list pos) (s : Z) :
  calculate_objective self wifi = Ok s →
  s ≤ 0 ∧ (s = 0 ↔ ∀ c, c ∈ computers self → c ∈ wifi).
Proof.
  intros Hs.
  destruct (calculate_objective_cases self wifi)
    as [(_ & _ & H)|[(Hc & H)|(Hw & H)]]; rewrite H in Hs; [done|..].
  - injection Hs as <-. split; [done|]. split; [|done].
    intros _ c Hin. rewrite Hc in Hin. by apply elem_of_nil in Hin.
  - injection Hs as <-.
    assert (Forall (λ x, 0 ≤ x) (nearest wifi <$> computers self)) as Hnn.
    { apply Forall_fmap, Forall_forall. intros c _. apply nearest_nonneg. }
    pose proof (py_sum_nonneg _ Hnn). split; [lia|]. split.
    + intros Hz c Hc.
      assert (py_sum (nearest wifi <$> computers self) = 0) as Hz' by lia.
      apply (py_sum_zero _ Hnn) in Hz'.
      rewrite Forall_fmap, Forall_forall in Hz'. specialize (Hz' c Hc).
      simpl in Hz'. destruct (nearest_spec wifi c Hw) as [(w & Hin & Hd) _].
      rewrite Hz' in Hd. symmetry in Hd.
      apply manhattan_distance_zero in Hd. by subst.
    + intros Hall.
      assert (Forall (λ x, x = 0) (nearest wifi <$> computers self)) as Hz.
      { apply Forall_fmap, Forall_forall. intros c Hc. simpl.
        destruct (nearest_spec wifi c Hw) as [_ Hle].
        specialize (Hle c (Hall c Hc)).
        assert (manhattan_distance c c = 0) as Hcc
          by by apply manhattan_distance_zero.
        pose proof (nearest_nonneg wifi c). lia. }
      clear -Hz. induction Hz as [|x l -> _ IH]; [done|].
      rewrite py_sum_cons. lia.
Qed.

Lemma X2_objective_sign_witness :
  calculate_objective c1_self [(0, 2); (0, 0)] = Ok 0
  ∧ 0 ≤ 0
  ∧ (0 = 0 ↔ ∀ c, c ∈ computers c1_self → c ∈ [(0, 2); (0, 0)]).
Proof.
  split; [reflexivity|].
  apply (X2_objective_sign c1_self [(0, 2); (0, 0)] 0). reflexivity.
Defined.

(** X3. The objective raises exactly on the empty placement with a computer
    to serve, and then it is [ValueError]; in every other case it returns a
    score, which is 0 when there is no computer. *)
Theorem X3_objective_errors (self : optimizer) (wifi : list pos) :
  (calculate_objective self wifi = Raise ValueError
   ↔ wifi = [] ∧ computers self ≠ [])
  ∧ ((∃ s, calculate_objective self wifi = Ok s)
     ↔ wifi ≠ [] ∨ computers self = [])
  ∧ (computers self = [] → calculate_objective self wifi = Ok 0).
Proof.
  destruct (calculate_objective_cases self wifi)
    as [(Hw & Hc & H)|[(Hc & H)|(Hw & H)]]; rewrite H.
  - split_and!; [done| |done]. split.
    + by intros [s ?].
    + by intros [?|?].
  - split_and!; [|by split; eauto|done]. split; [done|]. by intros [_ ?].
  - split_and!.
    + split; [done|]. by intros [? _].
    + split; eauto.
    + intros Hc. by rewrite calculate_objective_no_computers in H.
Qed.

(** X4. The score depends neither on the order of the Wi-Fi positions nor on
    the order in which the computers are listed. *)
Theorem X4_objective_order_irrelevant (self self' : optimizer)
    (wifi wifi' : list pos) :
  computers self ≡ₚ computers self' →
  wifi ≡ₚ wifi' →
  calculate_objective self wifi = calculate_objective self' wifi'.
Proof.
  intros Hc Hw.
  destruct (calculate_objective_cases self wifi)
    as [(-> & Hc1 & H)|[(Hc1 & H)|(Hw1 & H)]]; rewrite H.
  - apply Permutation_nil_l in Hw as <-.
    rewrite calculate_objective_empty; [done|].
    intros Hnil. rewrite Hnil in Hc. by apply Permutation_nil_r in Hc.
  - rewrite calculate_objective_no_computers; [done|].
    rewrite Hc1 in Hc. by apply Permutation_nil_l in Hc.
  - assert (wifi' ≠ []) as Hw2.
    { intros ->. by apply Permutation_nil_r in Hw. }
    rewrite calculate_objective_nonempty by done. do 2 f_equal.
    assert (∀ c, nearest wifi c = nearest wifi' c) as Heq.
    { intros c. apply Z.le_antisymm; apply nearest_subset; try done;
        intros w; by rewrite Hw. }
    transitivity (py_sum (nearest wifi' <$> computers self)).
    + f_equal. apply list_fmap_ext. intros i c _. apply Heq.
    + apply py_sum_perm. by apply fmap_Permutation.
Qed.

Lemma X4_objective_order_irrelevant_witness :
  computers c1_self ≡ₚ [(0, 2); (0, 0)]
  ∧ [(1, 1); (2, 0)] ≡ₚ [(2, 0); (1, 1)]
  ∧ calculate_objective c1_self [(1, 1); (2, 0)]
    = calculate_objective
        {| grid_size := 3; num_computers := 2; num_wifi := 2;
           computers := [(0, 2); (0, 0)] |} [(2, 0); (1, 1)].
Proof.
  assert (computers c1_self ≡ₚ [(0, 2); (0, 0)]) as Hc by apply Permutation_swap.
  assert ([(1, 1); (2, 0)] ≡ₚ [(2, 0); (1, 1)]) as Hw by apply Permutation_swap.
  split; [exact Hc|]. split; [exact Hw|].
  exact (X4_objective_order_irrelevant c1_self
           {| grid_size := 3; num_computers := 2; num_wifi := 2;
              computers := [(0, 2); (0, 0)] |} _ _ Hc Hw).
Defined.

(** X5. More Wi-Fi never score worse: if every position of a placement the
    objective accepts also occurs in a second placement, the second scores
    at least as high. *)
Theorem X5_objective_monotone (self : optimizer) (wifi wifi' : list pos) (s : Z) :
  (∀ w, w ∈ wifi → w ∈ wifi') →
  calculate_objective self wifi = Ok s →
  ∃ s', calculate_objective self wifi' = Ok s' ∧ s ≤ s'.
Proof.
  intros Hsub Hs.
  destruct (calculate_objective_cases self wifi)
    as [(_ & _ & H)|[(Hc & H)|(Hw & H)]]; rewrite H in Hs; [done|..];
    injection Hs as <-.
  - exists 0. split; [|done]. by apply calculate_objective_no_computers.
  - assert (wifi' ≠ []) as Hw'.
    { destruct wifi as [|w wifi]; [done|]. intros Hnil.
      specialize (Hsub w). rewrite Hnil in Hsub.
      eapply elem_of_nil, Hsub. left. }
    eexists. split; [by apply calculate_objective_nonempty|].
    assert (py_sum (nearest wifi' <$> computers self)
            ≤ py_sum (nearest wifi <$> computers self)); [|lia].
    apply py_sum_le, Forall2_fmap, Forall_Forall2_diag, Forall_forall.
    intros c _. by apply nearest_subset.
Qed.

Lemma X5_objective_monotone_witness :
  (∀ w : pos, w ∈ [(2, 2)] → w ∈ [(0, 1); (2, 2)])
  ∧ calculate_objective c1_self [(2, 2)] = Ok (-6)
  ∧ ∃ s', calculate_objective c1_self [(0, 1); (2, 2)] = Ok s' ∧ -6 ≤ s'.
Proof.
  assert (∀ w : pos, w ∈ [(2, 2)] → w ∈ [(0, 1); (2, 2)]) as Hsub.
  { intros w Hw. by right. }
  split; [exact Hsub|]. split; [reflexivity|].
  exact (X5_objective_monotone c1_self _ _ (-6) Hsub eq_refl).
Defined.

(** ** Neighbour generator *)

Lemma directions_unit (d : Z * Z) :
  d ∈ directions ↔ Z.abs d.1 + Z.abs d.2 = 1.
Proof.
  unfold directions. destruct d as [dx dy]. simpl. split.
  - rewrite !elem_of_cons, elem_of_nil.
    intros [H|[H|[H|[H|[]]]]]; injection H as -> ->; lia.
  - intros H.
    assert ((dx = -1 ∧ dy = 0) ∨ (dx = 1 ∧ dy = 0)
            ∨ (dx = 0 ∧ dy = -1) ∨ (dx = 0 ∧ dy = 1))
      as [[-> ->]|[[-> ->]|[[-> ->]|[-> ->]]]] by lia.
    + left.
    + right; left.
    + do 2 right; left.
    + do 3 right; left.
Qed.

Lemma move_intro (self : optimizer) (l : list pos) (i : nat) (xy : pos)
    (d : Z * Z) :
  in_grid self (xy.1 + d.1, xy.2 + d.2) →
  NoDup (<[i := (xy.1 + d.1, xy.2 + d.2)]> l) →
  move self l i xy d = Some (<[i := (xy.1 + d.1, xy.2 + d.2)]> l).
Proof.
  intros [[H1 H2] [H3 H4]] Hnd. simpl in *. unfold move.
  apply Z.leb_le in H1, H3. apply Z.ltb_lt in H2, H4.
  rewrite H1, H2, H3, H4. simpl.
  apply all_distinct_NoDup in Hnd. by rewrite Hnd.
Qed.

(** The neighbours of a placement are the placements obtained by moving one
    Wi-Fi to a cell of the grid at distance 1, all positions staying
    distinct. *)
Lemma elem_of_get_neighbors_step (self : optimizer) (l n : list pos) :
  n ∈ get_neighbors self l ↔
  ∃ i xy p, l !! i = Some xy
            ∧ manhattan_distance xy p = 1
            ∧ in_grid self p
            ∧ NoDup (<[i := p]> l)
            ∧ n = <[i := p]> l.
Proof.
  rewrite elem_of_get_neighbors. split.
  - intros (i & xy & d & Hi & Hd & Hm).
    apply move_Some in Hm as (-> & Hin & Hnd).
    exists i, xy, (xy.1 + d.1, xy.2 + d.2). split_and!; try done.
    apply directions_unit in Hd. unfold manhattan_distance. simpl. lia.
  - intros (i & xy & p & Hi & Hd & Hin & Hnd & ->).
    exists i, xy, (p.1 - xy.1, p.2 - xy.2).
    assert (p = (xy.1 + (p.1 - xy.1, p.2 - xy.2).1,
                 xy.2 + (p.1 - xy.1, p.2 - xy.2).2)) as Hp.
    { destruct p. simpl. f_equal; lia. }
    split_and!; [done| |].
    + apply directions_unit. unfold manhattan_distance in Hd. simpl. lia.
    + rewrite Hp at 3. apply move_intro; by rewrite <-Hp.
Qed.

(** X6. The neighbours of a placement are exactly the placements that differ
    from it in one Wi-Fi, moved to a cell of the grid at Manhattan distance
    1, with all positions still distinct. *)
Theorem X6_neighbors_characterised (self : optimizer) (l n : list pos) :
  n ∈ get_neighbors self l ↔
  ∃ i xy p, l !! i = Some xy
            ∧ manhattan_distance xy p = 1
            ∧ in_grid self p
            ∧ NoDup (<[i := p]> l)
            ∧ n = <[i := p]> l.
Proof. apply elem_of_get_neighbors_step. Qed.

Lemma length_omap_directions {B : Type} (f : Z * Z → option B) :
  (length (omap f directions) ≤ 4)%nat.
Proof.
  unfold directions. simpl.
  repeat (match goal with |- context [f ?d] => destruct (f d) end); simpl; lia.
Qed.

Lemma length_imap_omap_directions {B : Type}
    (F : nat → pos → Z * Z → option B) (l : list pos) :
  (length (mjoin (imap (λ i xy, omap (F i xy) directions) l)) ≤ 4 * length l)%nat.
Proof.
  revert F. induction l as [|p l IH]; intros F; [simpl; lia|].
  rewrite imap_cons. cbn [mjoin list_join]. rewrite length_app.
  pose proof (length_omap_directions (F 0%nat p)).
  pose proof (IH (λ i, F (S i))) as IH'.
  apply (Nat.le_trans _ (4 + 4 * length l));
    [apply Nat.add_le_mono; [exact H|exact IH']|simpl; lia].
Qed.

(** X7. A placement of k Wi-Fi has at most 4k neighbours, each of k Wi-Fi. *)
Theorem X7_neighbors_count (self : optimizer) (l : list pos) :
  (length (get_neighbors self l) ≤ 4 * length l)%nat
  ∧ Forall (λ n, length n = length l) (get_neighbors self l).
Proof.
  split; [apply length_imap_omap_directions|].
  apply Forall_forall. intros n. apply get_neighbors_length.
Qed.

(** X8. Moves can be undone: a valid placement is a neighbour of each of its
    neighbours. *)
Theorem X8_neighbors_symmetric (self : optimizer) (l n : list pos) :
  Forall (in_grid self) l → NoDup l →
  n ∈ get_neighbors self l → l ∈ get_neighbors self n.
Proof.
  intros Hgrid Hnd (i & xy & p & Hi & Hd & Hin & Hnd' & ->)%elem_of_get_neighbors_step.
  apply elem_of_get_neighbors_step. exists i, p, xy.
  assert (i < length l)%nat as Hlt by by eapply lookup_lt_Some.
  assert (<[i := xy]> (<[i := p]> l) = l) as Hback.
  { rewrite list_insert_insert_eq. by apply list_insert_id. }
  split_and!.
  - by apply list_lookup_insert_eq.
  - unfold manhattan_distance in *. lia.
  - rewrite Forall_forall in Hgrid. apply Hgrid. by eapply list_elem_of_lookup_2.
  - by rewrite Hback.
  - by rewrite Hback.
Qed.

Lemma X8_neighbors_symmetric_witness :
  Forall (in_grid c7_self) [(0, 1); (2, 0)] ∧ NoDup [(0, 1); (2, 0)]
  ∧ [(0, 1); (1, 0)] ∈ get_neighbors c7_self [(0, 1); (2, 0)]
  ∧ [(0, 1); (2, 0)] ∈ get_neighbors c7_self [(0, 1); (1, 0)].
Proof.
  assert (Forall (in_grid c7_self) [(0, 1); (2, 0)]) as Hgrid.
  { repeat constructor; simpl; lia. }
  assert (NoDup [(0, 1); (2, 0)]) as Hnd.
  { apply all_distinct_NoDup. reflexivity. }
  assert ([(0, 1); (1, 0)] ∈ get_neighbors c7_self [(0, 1); (2, 0)]) as Hn.
  { do 3 right. left. }
  split; [exact Hgrid|]. split; [exact Hnd|]. split; [exact Hn|].
  exact (X8_neighbors_symmetric c7_self _ _ Hgrid Hnd Hn).
Defined.

(** ** Single climbs *)

Lemma hill_climbing_Ok_inv (self : optimizer) (w : list pos) (m : Z) (d : Dict) :
  hill_climbing self w m = Ok d →
  ∃ s, calculate_objective self w = Ok s
       ∧ hill_climbing_loop self m (S (Z.to_nat m)) (initial_state w s) = Ok d.
Proof.
  rewrite hill_climbing_unfold.
  destruct (calculate_objective self w) as [s| |]; [|done..]. by exists s.
Qed.

Lemma calculate_objective_nonpos (self : optimizer) (wifi : list pos) (s : Z) :
  calculate_objective self wifi = Ok s → s ≤ 0.
Proof.
  intros Hs.
  destruct (calculate_objective_cases self wifi)
    as [(_ & _ & H)|[(_ & H)|(_ & H)]]; rewrite H in Hs; [done|..];
    injection Hs as <-; [done|].
  assert (0 ≤ py_sum (nearest wifi <$> computers self)); [|lia].
  apply py_sum_nonneg, Forall_fmap, Forall_forall. intros c _.
  apply nearest_nonneg.
Qed.

Lemma get_neighbors_valid (self : optimizer) (l n : list pos) :
  Forall (in_grid self) l → n ∈ get_neighbors self l →
  Forall (in_grid self) n ∧ NoDup n.
Proof.
  intros Hl (i & xy & p & _ & _ & Hp & Hnd & ->)%elem_of_get_neighbors_step.
  split; [|done]. by apply Forall_insert.
Qed.

(** A placement without neighbours is returned as it is. *)
Lemma hill_climbing_no_neighbors (self : optimizer) (w : list pos) (m s : Z) :
  get_neighbors self w = [] →
  calculate_objective self w = Ok s →
  hill_climbing self w m = Ok (initial_state w s).
Proof.
  intros Hn Hs. rewrite hill_climbing_unfold, Hs. cbn [mbind result_bind].
  apply hill_climbing_loop_stop.
  destruct (Z.le_gt_cases m 0) as [Hm|Hm]; [by left|right].
  unfold hill_climbing_body. cbn [wifi_positions initial_state]. rewrite Hn.
  simpl. by rewrite Z.leb_refl.
Qed.

Lemma get_neighbors_single_cell (self : optimizer) (w : list pos) :
  grid_size self ≤ 1 → Forall (in_grid self) w → get_neighbors self w = [].
Proof.
  intros Hg Hw.
  destruct (get_neighbors self w) as [|n ns] eqn:Hn; [done|].
  assert (n ∈ get_neighbors self w) as Hin by (rewrite Hn; left).
  apply elem_of_get_neighbors_step in Hin
    as (i & xy & p & Hi & Hd & Hp & _ & _).
  rewrite Forall_forall in Hw.
  assert (in_grid self xy) as Hxy by (apply Hw; by eapply list_elem_of_lookup_2).
  unfold in_grid, manhattan_distance in *. lia.
Qed.

(** X9. When no move is possible the start is returned unchanged, with no
    step and no improvement counted: under a cap of 0 or less, and on a grid
    of a single cell. *)
Theorem X9_no_move (self : optimizer) (w : list pos) (m s : Z) :
  m ≤ 0 ∨ (grid_size self ≤ 1 ∧ Forall (in_grid self) w) →
  calculate_objective self w = Ok s →
  hill_climbing self w m
  = Ok {| wifi_positions := w; score := s; iterations := 0; improvements := 0 |}.
Proof.
  intros [Hm|[Hg Hw]] Hs.
  - rewrite hill_climbing_unfold, Hs. cbn [mbind result_bind].
    apply hill_climbing_loop_stop. by left.
  - apply hill_climbing_no_neighbors; [|done]. by apply get_neighbors_single_cell.
Qed.

Lemma X9_no_move_witness :
  let self := {| grid_size := 1; num_computers := 1; num_wifi := 1;
                 computers := [(0, 0)] |} in
  (500 ≤ 0 ∨ (grid_size self ≤ 1 ∧ Forall (in_grid self) [(0, 0)]))
  ∧ calculate_objective self [(0, 0)] = Ok 0
  ∧ hill_climbing self [(0, 0)] 500
    = Ok {| wifi_positions := [(0, 0)]; score := 0;
            iterations := 0; improvements := 0 |}.
Proof.
  intros self.
  assert (500 ≤ 0 ∨ (grid_size self ≤ 1 ∧ Forall (in_grid self) [(0, 0)])) as H.
  { right. split; [simpl; lia|]. repeat constructor; simpl; lia. }
  split; [exact H|]. split; [reflexivity|].
  exact (X9_no_move self [(0, 0)] 500 0 H eq_refl).
Defined.

Lemma hill_climbing_stops (self : optimizer) (w : list pos) (m : Z) (d : Dict) :
  hill_climbing self w m = Ok d → stops self m d.
Proof.
  intros (s & _ & Hloop)%hill_climbing_Ok_inv.
  by apply adopted_last in Hloop as [_ ?].
Qed.

(** X10. A climb that ends below its cap ends in a local optimum: no
    neighbour of the returned placement scores higher than it. *)
Theorem X10_local_optimum (self : optimizer) (w : list pos) (m : Z) (d : Dict) :
  hill_climbing self w m = Ok d →
  iterations d < m →
  ∀ n, n ∈ get_neighbors self (wifi_positions d) →
       ∃ s, calculate_objective self n = Ok s ∧ s ≤ score d.
Proof.
  intros Hrun Hlt n Hn.
  apply hill_climbing_stops in Hrun as [Hcap|Hb]; [lia|].
  apply hill_climbing_body_Break in Hb as (scored & Hsc & Hle).
  apply scored_neighbors_inv in Hsc.
  apply list_elem_of_lookup in Hn as [j Hj].
  destruct (Forall2_lookup_l _ _ _ _ _ Hsc Hj) as ([n' s] & Hp & _ & Hs).
  exists s. split; [done|]. apply (Hle (n', s)). by eapply list_elem_of_lookup_2.
Qed.

Lemma X10_local_optimum_witness :
  let d := {| wifi_positions := [(0, 2)]; score := -2;
              iterations := 2; improvements := 2 |} in
  hill_climbing c1_self [(2, 2)] 500 = Ok d
  ∧ iterations d < 500
  ∧ ∀ n, n ∈ get_neighbors c1_self (wifi_positions d) →
         ∃ s, calculate_objective c1_self n = Ok s ∧ s ≤ score d.
Proof.
  intros d.
  assert (hill_climbing c1_self [(2, 2)] 500 = Ok d) as Hrun
    by (vm_compute; reflexivity).
  assert (iterations d < 500) as Hlt by (simpl; lia).
  split; [exact Hrun|]. split; [exact Hlt|].
  exact (X10_local_optimum c1_self [(2, 2)] 500 d Hrun Hlt).
Defined.

(** X11. Each step gains at least one unit of score, so the climb never
    scores below its start and, scores being at most 0, takes no more steps
    than the total distance it starts with, whatever the cap. *)
Theorem X11_steps_bounded_by_distance (self : optimizer) (w : list pos)
    (m : Z) (d : Dict) :
  hill_climbing self w m = Ok d →
  ∃ s0, calculate_objective self w = Ok s0
        ∧ s0 + iterations d ≤ score d
        ∧ score d ≤ 0
        ∧ 0 ≤ iterations d ≤ - s0.
Proof.
  intros (s0 & Hs0 & Hloop)%hill_climbing_Ok_inv. exists s0. split; [done|].
  assert (s0 + iterations d ≤ score d ∧ 0 ≤ iterations d
          ∧ calculate_objective self (wifi_positions d) = Ok (score d))
    as (H1 & H2 & H3).
  { revert Hloop.
    apply (hill_climbing_loop_invariant self m
             (λ st, s0 + iterations st ≤ score st ∧ 0 ≤ iterations st
                    ∧ calculate_objective self (wifi_positions st)
                      = Ok (score st))); [|simpl; split_and!; [lia|lia|done]].
    intros st st' (Hst & Hit & _) [_ Hb].
    pose proof (hill_climbing_body_evaluable _ _ _ Hb) as [_ Hobj].
    apply hill_climbing_body_Continue in Hb as (_ & _ & _ & _ & Hlt & Hi & _).
    split_and!; [lia|lia|done]. }
  apply calculate_objective_nonpos in H3. lia.
Qed.

Lemma X11_steps_bounded_by_distance_witness :
  let d := {| wifi_positions := [(0, 2)]; score := -2;
              iterations := 2; improvements := 2 |} in
  hill_climbing c1_self [(2, 2)] 500 = Ok d
  ∧ ∃ s0, calculate_objective c1_self [(2, 2)] = Ok s0
          ∧ s0 + iterations d ≤ score d
          ∧ score d ≤ 0
          ∧ 0 ≤ iterations d ≤ - s0.
Proof.
  intros d.
  assert (hill_climbing c1_self [(2, 2)] 500 = Ok d) as Hrun
    by (vm_compute; reflexivity).
  split; [exact Hrun|].
  exact (X11_steps_bounded_by_distance c1_self [(2, 2)] 500 d Hrun).
Defined.

(** X14. The climb keeps a placement valid: from distinct positions on the
    grid it returns as many distinct positions on the grid. *)
Theorem X14_climb_keeps_valid (self : optimizer) (w : list pos) (m : Z)
    (d : Dict) :
  Forall (in_grid self) w → NoDup w →
  hill_climbing self w m = Ok d →
  Forall (in_grid self) (wifi_positions d)
  ∧ NoDup (wifi_positions d)
  ∧ length (wifi_positions d) = length w.
Proof.
  intros Hgrid Hnd (s & _ & Hloop)%hill_climbing_Ok_inv. revert Hloop.
  apply (hill_climbing_loop_invariant self m
           (λ st, Forall (in_grid self) (wifi_positions st)
                  ∧ NoDup (wifi_positions st)
                  ∧ length (wifi_positions st) = length w)); [|done].
  intros st st' (Hg & _ & Hlen) [_ [Hn _]%hill_climbing_body_evaluable].
  pose proof (get_neighbors_length _ _ _ Hn).
  apply get_neighbors_valid in Hn as [? ?]; [|done].
  split_and!; [done..|congruence].
Qed.

Lemma X14_climb_keeps_valid_witness :
  Forall (in_grid c7_self) [(2, 2); (2, 1); (1, 2)]
  ∧ NoDup [(2, 2); (2, 1); (1, 2)]
  ∧ ∃ d, hill_climbing c7_self [(2, 2); (2, 1); (1, 2)] 500 = Ok d
         ∧ Forall (in_grid c7_self) (wifi_positions d)
         ∧ NoDup (wifi_positions d)
         ∧ length (wifi_positions d) = 3%nat.
Proof.
  assert (Forall (in_grid c7_self) [(2, 2); (2, 1); (1, 2)]) as Hgrid.
  { repeat constructor; simpl; lia. }
  assert (NoDup [(2, 2); (2, 1); (1, 2)]) as Hnd.
  { apply all_distinct_NoDup. reflexivity. }
  assert (∃ d, hill_climbing c7_self [(2, 2); (2, 1); (1, 2)] 500 = Ok d)
    as [d Hrun].
  { eexists. vm_compute. reflexivity. }
  split; [exact Hgrid|]. split; [exact Hnd|]. exists d. split; [exact Hrun|].
  exact (X14_climb_keeps_valid c7_self _ 500 d Hgrid Hnd Hrun).
Defined.

(** The body of the loop reads the placement and the score only; the
    counters are passed on, advanced by one. *)
Lemma hill_climbing_body_shift (self : optimizer) (k : Z) (st : Dict) :
  hill_climbing_body self (shift k st)
  = c ← hill_climbing_body self st;
    mret (match c with
          | Break => Break
          | Continue st' => Continue (shift k st')
          end).
Proof.
  unfold hill_climbing_body. cbn [shift wifi_positions score].
  destruct (scored_neighbors self (get_neighbors self (wifi_positions st)))
    as [scored| |]; simpl; [|done..].
  destruct (py_max snd (None, score st) scored) as [bn bs].
  destruct (bs <=? score st); [done|]. destruct bn as [n|]; [|done].
  simpl. unfold shift. simpl. do 3 f_equal; lia.
Qed.

Lemma hill_climbing_loop_shift (self : optimizer) (m k : Z) (fuel : nat)
    (st : Dict) :
  hill_climbing_loop self (m + k) fuel (shift k st)
  = d ← hill_climbing_loop self m fuel st; mret (shift k d).
Proof.
  revert st. induction fuel as [|fuel IH]; intros st; [done|].
  cbn [hill_climbing_loop].
  replace (iterations (shift k st) <? m + k) with (iterations st <? m).
  2:{ simpl. destruct (Z.ltb_spec (iterations st) m),
        (Z.ltb_spec (iterations st + k) (m + k)); try done; lia. }
  destruct (iterations st <? m); [|done].
  rewrite hill_climbing_body_shift.
  destruct (hill_climbing_body self st) as [[|st']| |]; simpl; [done| |done..].
  apply IH.
Qed.

Lemma hill_climbing_loop_more_fuel (self : optimizer) (m : Z) (fuel fuel' : nat)
    (st d : Dict) :
  hill_climbing_loop self m fuel st = Ok d →
  (fuel ≤ fuel')%nat →
  hill_climbing_loop self m fuel' st = Ok d.
Proof.
  revert fuel' st. induction fuel as [|fuel IH]; intros fuel' st; [done|].
  intros Hloop Hle. destruct fuel' as [|fuel']; [lia|]. simpl in *.
  destruct (iterations st <? m); [|done].
  destruct (hill_climbing_body self st) as [[|st']| |]; simpl in *; try done.
  apply IH; [done|lia].
Qed.

(** A run under cap [a] is the beginning of the run under a larger cap. *)
Lemma hill_climbing_loop_extend (self : optimizer) (a c : Z) (fuel fuel2 : nat)
    (st d1 d : Dict) :
  a ≤ c →
  hill_climbing_loop self a fuel st = Ok d1 →
  hill_climbing_loop self c fuel2 d1 = Ok d →
  hill_climbing_loop self c (fuel + fuel2) st = Ok d.
Proof.
  intros Hac. revert st. induction fuel as [|fuel IH]; intros st; [done|].
  intros Hloop Hrest. simpl in Hloop.
  destruct (Z.ltb_spec (iterations st) a) as [Hlt|Hge].
  - destruct (hill_climbing_body self st) as [[|st']| |] eqn:Hb;
      simpl in Hloop; try done.
    + injection Hloop as <-.
      eapply hill_climbing_loop_more_fuel; [exact Hrest|lia].
    + change (S fuel + fuel2)%nat with (S (fuel + fuel2)).
      rewrite (hill_climbing_loop_adopt _ _ _ _ st'); [by apply IH|].
      split; [lia|done].
  - injection Hloop as <-.
    eapply hill_climbing_loop_more_fuel; [exact Hrest|lia].
Qed.

Lemma hill_climbing_loop_result (self : optimizer) (w : list pos) (m s : Z)
    (fuel : nat) (d : Dict) :
  calculate_objective self w = Ok s →
  hill_climbing_loop self m fuel (initial_state w s) = Ok d →
  hill_climbing self w m = Ok d.
Proof.
  intros Hs Hloop. rewrite hill_climbing_unfold, Hs. cbn [mbind result_bind].
  destruct (hill_climbing_loop_fuel self m (S (Z.to_nat m)) (initial_state w s))
    as [d' Hd'].
  { simpl. by eapply calculate_objective_Ok_evaluable. }
  { simpl. lia. }
  rewrite Hd'. f_equal.
  pose proof (hill_climbing_loop_more_fuel _ _ _ (fuel `max` S (Z.to_nat m))
                _ _ Hloop ltac:(lia)) as H1.
  pose proof (hill_climbing_loop_more_fuel _ _ _ (fuel `max` S (Z.to_nat m))
                _ _ Hd' ltac:(lia)) as H2.
  congruence.
Qed.

(** What a climb returns: the counters agree, and the score is that of the
    placement. *)
Lemma hill_climbing_result_shape (self : optimizer) (w : list pos) (m : Z)
    (d : Dict) :
  hill_climbing self w m = Ok d →
  d = shift (iterations d) (initial_state (wifi_positions d) (score d))
  ∧ calculate_objective self (wifi_positions d) = Ok (score d).
Proof.
  intros (s & Hs & Hloop)%hill_climbing_Ok_inv.
  pose proof (hill_climbing_loop_counters _ _ _ _ _ Hloop) as [Hit Him].
  assert (calculate_objective self (wifi_positions d) = Ok (score d)) as Hobj.
  { revert Hloop.
    apply (hill_climbing_loop_invariant self m
             (λ st, calculate_objective self (wifi_positions st)
                    = Ok (score st))); [|done].
    by intros st st' _ [_ [_ ?]%hill_climbing_body_evaluable]. }
  split; [|done]. destruct d as [dw ds di dm]. unfold shift, initial_state.
  cbn [iterations improvements initial_state] in *. f_equal; lia.
Qed.

(** X12. Climbing again from the placement a climb returned below its cap
    changes nothing: the same placement and score come back, with no step
    taken, whatever the new cap. *)
Theorem X12_reclimb_is_identity (self : optimizer) (w : list pos) (m m' : Z)
    (d : Dict) :
  hill_climbing self w m = Ok d →
  iterations d < m →
  hill_climbing self (wifi_positions d) m'
  = Ok {| wifi_positions := wifi_positions d; score := score d;
          iterations := 0; improvements := 0 |}.
Proof.
  intros Hrun Hlt.
  pose proof (hill_climbing_result_shape _ _ _ _ Hrun) as [Hd Hobj].
  apply hill_climbing_stops in Hrun as [Hcap|Hb]; [lia|].
  rewrite hill_climbing_unfold, Hobj. cbn [mbind result_bind].
  apply hill_climbing_loop_stop. right.
  rewrite Hd, hill_climbing_body_shift in Hb.
  change (hill_climbing_body self
            (initial_state (wifi_positions d) (score d)) = Ok Break).
  destruct (hill_climbing_body self
              (initial_state (wifi_positions d) (score d))) as [[|st']| |];
    by simpl in Hb.
Qed.

Lemma X12_reclimb_is_identity_witness :
  let d := {| wifi_positions := [(0, 2)]; score := -2;
              iterations := 2; improvements := 2 |} in
  hill_climbing c1_self [(2, 2)] 500 = Ok d
  ∧ iterations d < 500
  ∧ hill_climbing c1_self [(0, 2)] 7
    = Ok {| wifi_positions := [(0, 2)]; score := -2;
            iterations := 0; improvements := 0 |}.
Proof.
  intros d.
  assert (hill_climbing c1_self [(2, 2)] 500 = Ok d) as Hrun
    by (vm_compute; reflexivity).
  assert (iterations d < 500) as Hlt by (simpl; lia).
  split; [exact Hrun|]. split; [exact Hlt|].
  exact (X12_reclimb_is_identity c1_self [(2, 2)] 500 7 d Hrun Hlt).
Defined.

(** X15. Climbs can be resumed: a climb under cap a, followed by a climb
    under cap b from the placement it returned, ends where one climb under
    cap a + b ends, and the counters of the two add up. *)
Theorem X15_climb_resumes (self : optimizer) (w : list pos) (a b : Z)
    (d1 d2 : Dict) :
  0 ≤ a → 0 ≤ b →
  hill_climbing self w a = Ok d1 →
  hill_climbing self (wifi_positions d1) b = Ok d2 →
  hill_climbing self w (a + b)
  = Ok {| wifi_positions := wifi_positions d2;
          score := score d2;
          iterations := iterations d1 + iterations d2;
          improvements := improvements d1 + improvements d2 |}.
Proof.
  intros Ha Hb Hrun1 Hrun2.
  pose proof (hill_climbing_result_shape _ _ _ _ Hrun1) as [Hd1 Hobj1].
  pose proof (hill_climbing_stops _ _ _ _ Hrun1) as Hstop.
  destruct (hill_climbing_Ok_inv _ _ _ _ Hrun1) as (s & Hs & Hloop1).
  assert (0 ≤ iterations d1 ≤ a) as Hit1.
  { revert Hloop1.
    apply (hill_climbing_loop_invariant self a
             (λ st, 0 ≤ iterations st ≤ a)); [|simpl; lia].
    intros st st' Hst [Hlt Hbody].
    apply hill_climbing_body_Continue in Hbody as (_ & _ & _ & _ & _ & Hi & _).
    lia. }
  assert (improvements d1 = iterations d1) as Him1.
  { rewrite Hd1. simpl. lia. }
  destruct (hill_climbing_Ok_inv _ _ _ _ Hrun2) as (s' & Hs' & Hloop2).
  rewrite Hobj1 in Hs'. injection Hs' as <-.
  set (init1 := initial_state (wifi_positions d1) (score d1)) in *.
  enough (∃ fuel2, hill_climbing_loop self (a + b) fuel2 d1
                   = Ok {| wifi_positions := wifi_positions d2;
                           score := score d2;
                           iterations := iterations d1 + iterations d2;
                           improvements := improvements d1 + improvements d2 |})
    as [fuel2 Hrest].
  { eapply hill_climbing_loop_result; [exact Hs|].
    eapply (hill_climbing_loop_extend self a (a + b)); [lia|exact Hloop1|].
    exact Hrest. }
  destruct Hstop as [Hcap|Hbreak].
  - assert (iterations d1 = a) as Hit by lia.
    exists (S (Z.to_nat b)).
    pose proof (hill_climbing_loop_shift self b a (S (Z.to_nat b)) init1) as Hsh.
    rewrite Hloop2 in Hsh. cbn [mbind result_bind mret result_ret] in Hsh.
    rewrite <-Hit in Hsh at 2. rewrite <-Hd1 in Hsh.
    replace (a + b) with (b + a) by lia. rewrite Hsh. f_equal.
    unfold shift. f_equal; lia.
  - exists 1%nat.
    assert (hill_climbing_body self init1 = Ok Break) as Hbreak1.
    { rewrite Hd1, hill_climbing_body_shift in Hbreak.
      destruct (hill_climbing_body self init1) as [[|st']| |];
        by simpl in Hbreak. }
    assert (d2 = init1) as ->.
    { rewrite hill_climbing_loop_stop in Hloop2 by by right. by injection Hloop2. }
    rewrite hill_climbing_loop_stop by by right. f_equal.
    rewrite Hd1 at 1. unfold shift, init1, initial_state. simpl.
    f_equal; lia.
Qed.

Lemma X15_climb_resumes_witness :
  let d1 := {| wifi_positions := [(1, 2)]; score := -4;
               iterations := 1; improvements := 1 |} in
  let d2 := {| wifi_positions := [(0, 2)]; score := -2;
               iterations := 1; improvements := 1 |} in
  0 ≤ 1 ∧ 0 ≤ 3
  ∧ hill_climbing c1_self [(2, 2)] 1 = Ok d1
  ∧ hill_climbing c1_self (wifi_positions d1) 3 = Ok d2
  ∧ hill_climbing c1_self [(2, 2)] (1 + 3)
    = Ok {| wifi_positions := [(0, 2)]; score := -2;
            iterations := 2; improvements := 2 |}.
Proof.
  intros d1 d2.
  assert (hill_climbing c1_self [(2, 2)] 1 = Ok d1) as H1
    by (vm_compute; reflexivity).
  assert (hill_climbing c1_self (wifi_positions d1) 3 = Ok d2) as H2
    by (vm_compute; reflexivity).
  split; [lia|]. split; [lia|]. split; [exact H1|]. split; [exact H2|].
  exact (X15_climb_resumes c1_self [(2, 2)] 1 3 d1 d2
           ltac:(lia) ltac:(lia) H1 H2).
Defined.

Lemma mapM_ext {A B : Type} (f g : A → result B) (l : list A) :
  (∀ x, f x = g x) → mapM f l = mapM g l.
Proof.
  intros Hfg. induction l as [|x l IH]; [done|]. simpl. by rewrite Hfg, IH.
Qed.

Lemma calculate_objective_computers_perm (self self' : optimizer)
    (wifi : list pos) :
  computers self ≡ₚ computers self' →
  calculate_objective self wifi = calculate_objective self' wifi.
Proof.
  intros Hc.
  destruct (calculate_objective_cases self wifi)
    as [(-> & Hc1 & H)|[(Hc1 & H)|(Hw1 & H)]]; rewrite H.
  - rewrite calculate_objective_empty; [done|].
    intros Hnil. rewrite Hnil in Hc. by apply Permutation_nil_r in Hc.
  - rewrite calculate_objective_no_computers; [done|].
    rewrite Hc1 in Hc. by apply Permutation_nil_l in Hc.
  - rewrite calculate_objective_nonempty by done. do 2 f_equal.
    apply py_sum_perm. by apply fmap_Permutation.
Qed.

Lemma get_neighbors_grid (self self' : optimizer) (wifi : list pos) :
  grid_size self = grid_size self' →
  get_neighbors self wifi = get_neighbors self' wifi.
Proof.
  intros Hg. unfold get_neighbors. f_equal. apply imap_ext.
  intros i xy _. simpl. unfold move. by rewrite Hg.
Qed.

Lemma hill_climbing_body_computers_perm (self self' : optimizer) (st : Dict) :
  grid_size self = grid_size self' →
  computers self ≡ₚ computers self' →
  hill_climbing_body self st = hill_climbing_body self' st.
Proof.
  intros Hg Hc. unfold hill_climbing_body, scored_neighbors.
  rewrite (get_neighbors_grid self self') by done.
  rewrite (mapM_ext _ (λ n, s ← calculate_objective self' n; mret (Some n, s)));
    [done|].
  intros n. by rewrite (calculate_objective_computers_perm self self').
Qed.

(** X16. The order in which the computers are listed, which the set they are
    drawn through leaves open, has no effect on a climb: the same placement,
    score and counters are returned, or the same error. *)
Theorem X16_climb_ignores_computer_order (self self' : optimizer)
    (w : list pos) (m : Z) :
  grid_size self = grid_size self' →
  computers self ≡ₚ computers self' →
  hill_climbing self w m = hill_climbing self' w m.
Proof.
  intros Hg Hc. rewrite !hill_climbing_unfold.
  rewrite (calculate_objective_computers_perm self self') by done.
  destruct (calculate_objective self' w) as [s| |]; [|done..].
  cbn [mbind result_bind]. generalize (initial_state w s).
  induction (S (Z.to_nat m)) as [|fuel IH]; intros st; [done|]. simpl.
  rewrite (hill_climbing_body_computers_perm self self') by done.
  destruct (iterations st <? m); [|done].
  destruct (hill_climbing_body self' st) as [[|st']| |]; simpl; [done| |done..].
  apply IH.
Qed.

Lemma X16_climb_ignores_computer_order_witness :
  let self' := {| grid_size := 3; num_computers := 7; num_wifi := 1;
                  computers := [(0, 2); (0, 0)] |} in
  grid_size c1_self = grid_size self'
  ∧ computers c1_self ≡ₚ computers self'
  ∧ hill_climbing c1_self [(2, 2)] 500 = hill_climbing self' [(2, 2)] 500.
Proof.
  intros self'.
  assert (computers c1_self ≡ₚ computers self') as Hc by apply Permutation_swap.
  split; [reflexivity|]. split; [exact Hc|].
  exact (X16_climb_ignores_computer_order c1_self self' [(2, 2)] 500 eq_refl Hc).
Defined.

(** ** The restart controller, continued *)

Lemma py_sum_snoc (l : list Z) (x : Z) : py_sum (l ++ [x]) = py_sum l + x.
Proof. unfold py_sum. by rewrite foldl_app. Qed.

Section RestartStatistics.

Variable list_of_set : list pos → list pos.

(** The loop adds up the improvement counts of the climbs it records. *)
Lemma restart_body_total (self : optimizer) (max_iterations restart : Z)
    (v v' : locals) (g g' : rng) :
  total_improvements v = py_sum (improvements <$> all_results v) →
  restart_body list_of_set self max_iterations restart (v, g) = Ok (v', g') →
  total_improvements v' = py_sum (improvements <$> all_results v').
Proof.
  intros Htot. unfold restart_body.
  destruct (generate_random_wifi list_of_set self g) as [[w g1]| |];
    simpl; [|done..].
  destruct (hill_climbing self w max_iterations) as [r| |]; simpl; [|done..].
  destruct (exceeds _ _); intros [= <- <-];
    cbn [total_improvements all_results];
    rewrite fmap_app; cbn [fmap list_fmap]; by rewrite py_sum_snoc, Htot.
Qed.

Lemma restart_loop_total (self : optimizer) (max_iterations : Z) (xs : list Z) :
  ∀ (v v' : locals) (g g' : rng),
    total_improvements v = py_sum (improvements <$> all_results v) →
    for_each (restart_body list_of_set self max_iterations) xs (v, g)
    = Ok (v', g') →
    total_improvements v' = py_sum (improvements <$> all_results v').
Proof.
  induction xs as [|x xs IH]; intros v v' g g' Htot; cbn [for_each].
  - by intros [= <- _].
  - destruct (restart_body list_of_set self max_iterations x (v, g))
      as [[v1 g1]| |] eqn:Hb; simpl; [|done..].
    apply IH. by eapply restart_body_total.
Qed.

(** The whole of what the controller returns, in terms of the variables the
    loop leaves. *)
Lemma hill_climbing_with_random_restart_Ok_inv (self : optimizer)
    (num_restarts max_iterations : Z) (verbose : bool) (g g' : rng)
    (res : Results.t) :
  hill_climbing_with_random_restart list_of_set self num_restarts
    max_iterations verbose g = Ok (res, g') →
  ∃ v worst,
    for_each (restart_body list_of_set self max_iterations)
             (seqZ 0 num_restarts) (initial_locals, g) = Ok (v, g')
    ∧ py_min (score <$> all_results v) = Ok worst
    ∧ res = {| Results.best_wifi_positions := best_solution v;
               Results.best_score := best_score v;
               Results.best_restart_num := best_restart_num v;
               Results.total_restarts := num_restarts;
               Results.all_results := all_results v;
               Results.statistics :=
                 {| Statistics.best_score := best_score v;
                    Statistics.worst_score := worst;
                    Statistics.unique_solutions :=
                      length (remove_dups (score <$> all_results v));
                    Statistics.total_improvements := total_improvements v |} |}.
Proof.
  unfold hill_climbing_with_random_restart.
  destruct (for_each _ _ _) as [[v g1]| |]; simpl; [|done..].
  destruct (py_min _) as [worst| |] eqn:Hworst; simpl; [|done..].
  destruct (num_restarts =? 0); simpl; [done|].
  destruct verbose; simpl.
  - destruct (print_analysis _ _) as [[]| |]; simpl; [|done..].
    intros [= <- <-]. exists v, worst. split_and!; [done|exact Hworst|done].
  - intros [= <- <-]. exists v, worst. split_and!; [done|exact Hworst|done].
Qed.

Lemma is_run_counters (self : optimizer) (max_iterations : Z) (r : Dict) :
  is_run list_of_set self max_iterations r → improvements r = iterations r.
Proof.
  intros (w & g0 & g1 & _ & Hr).
  apply hill_climbing_result_shape in Hr as [Hr _]. rewrite Hr. simpl. lia.
Qed.

End RestartStatistics.

(** X13. The statistics the controller returns fit the climbs it recorded:
    the worst score is one of their scores and bounds them from below, the
    best score bounds them from above, the number of distinct scores lies
    between 1 and the number of climbs, and the total of improvements is the
    sum of their improvement counts, which is also the sum of their step
    counts. *)
Theorem X13_restart_statistics (list_of_set : list pos → list pos)
    (self : optimizer) (num_restarts max_iterations : Z) (verbose : bool)
    (g g' : rng) (res : Results.t) :
  hill_climbing_with_random_restart list_of_set self num_restarts
    max_iterations verbose g = Ok (res, g') →
  let stats := Results.statistics res in
  let scores := score <$> Results.all_results res in
  Results.total_restarts res = num_restarts
  ∧ Z.of_nat (length scores) = num_restarts
  ∧ Statistics.worst_score stats ∈ scores
  ∧ (∃ b, Results.best_score res = Int b
          ∧ Statistics.best_score stats = Int b
          ∧ ∀ s, s ∈ scores → Statistics.worst_score stats ≤ s ≤ b)
  ∧ (1 ≤ Statistics.unique_solutions stats ≤ length scores)%nat
  ∧ Statistics.total_improvements stats
    = py_sum (improvements <$> Results.all_results res)
  ∧ Statistics.total_improvements stats
    = py_sum (iterations <$> Results.all_results res).
Proof.
  intros Hrun.
  assert (1 ≤ num_restarts) as Hn.
  { destruct (Z.le_gt_cases 1 num_restarts) as [|Hlt]; [done|].
    rewrite hill_climbing_with_random_restart_none in Hrun by lia. done. }
  apply hill_climbing_with_random_restart_Ok_inv in Hrun
    as (v & worst & Hloop & Hworst & ->). simpl.
  pose proof (restart_loop_total _ _ _ _ initial_locals _ _ _ eq_refl Hloop)
    as Htot.
  replace num_restarts with (Z.of_nat (Z.to_nat num_restarts)) in Hloop by lia.
  apply restart_loop_inv in Hloop as (Hlen & Hbest & Hruns);
    [|done|done|constructor].
  simpl in Hlen. apply py_min_spec in Hworst as [Hin Hall].
  rewrite Forall_forall in Hall. unfold tracks_best in Hbest.
  destruct (all_results v) as [|a l] eqn:Hv; [simpl in Hlen; lia|].
  destruct Hbest as (k & r & (Hk & Hmax & _) & Hbs & _).
  rewrite <-Hv in *. split_and!.
  - done.
  - rewrite length_fmap. lia.
  - done.
  - exists (score r). split_and!; [done..|]. intros s Hs. split; [by apply Hall|].
    apply list_elem_of_fmap in Hs as (x & -> & Hx). by apply Hmax.
  - destruct (remove_dups (score <$> all_results v)) as [|x xs] eqn:Hrd;
      [|simpl; lia].
    rewrite <-elem_of_remove_dups, Hrd in Hin.
    by apply elem_of_nil in Hin.
  - apply length_remove_dups_le.
  - done.
  - rewrite Htot. f_equal. apply list_fmap_ext. intros i x Hx.
    rewrite Forall_forall in Hruns. eapply is_run_counters, Hruns.
    by eapply list_elem_of_lookup_2.
Qed.

Lemma X13_restart_statistics_witness :
  ∃ res g',
    hill_climbing_with_random_restart remove_dups c7_self 3 500 true
      counting_tape = Ok (res, g')
    ∧ Results.total_restarts res = 3
    ∧ Statistics.worst_score (Results.statistics res)
      ∈ score <$> Results.all_results res
    ∧ Statistics.total_improvements (Results.statistics res)
      = py_sum (iterations <$> Results.all_results res).
Proof.
  assert (∃ res g',
            hill_climbing_with_random_restart remove_dups c7_self 3 500 true
              counting_tape = Ok (res, g')) as (res & g' & Hrun).
  { eexists _, _. vm_compute. reflexivity. }
  exists res, g'. split; [exact Hrun|].
  pose proof (X13_restart_statistics remove_dups c7_self 3 500 true
                counting_tape g' res Hrun) as (H1 & _ & H3 & _ & _ & _ & H7).
  split; [exact H1|]. split; [exact H3|exact H7].
Defined.

Section RestartEdges.

Variable list_of_set : list pos → list pos.

Lemma generate_random_wifi_grid_Ok (self : optimizer) (g : rng) :
  1 ≤ grid_size self →
  ∃ l g', generate_random_wifi list_of_set self g = Ok (l, g').
Proof.
  intros Hgs. unfold generate_random_wifi.
  destruct (random_positions_Ok (grid_size self) (Z.to_nat (num_wifi self)) g Hgs)
    as (ps & g' & ->).
  simpl. by do 2 eexists.
Qed.

Lemma restart_body_unfold (self : optimizer) (max_iterations restart : Z)
    (v : locals) (g : rng) :
  restart_body list_of_set self max_iterations restart (v, g)
  = '(initial_wifi, g') ← generate_random_wifi list_of_set self g;
    result ← hill_climbing self initial_wifi max_iterations;
    mret ((if exceeds (score result) (best_score v) then
             {| best_solution := Some (wifi_positions result);
                best_score := Int (score result);
                best_restart_num := restart + 1;
                all_results := all_results v ++ [result];
                total_improvements := total_improvements v + improvements result |}
           else
             {| best_solution := best_solution v;
                best_score := best_score v;
                best_restart_num := best_restart_num v;
                all_results := all_results v ++ [result];
                total_improvements := total_improvements v + improvements result |}),
          g').
Proof.
  unfold restart_body.
  destruct (generate_random_wifi list_of_set self g) as [[w g1]| |];
    simpl; [|done..].
  destruct (hill_climbing self w max_iterations) as [r| |]; simpl; [|done..].
  by destruct (exceeds _ _).
Qed.

Lemma restart_loop_no_computers_Ok (self : optimizer) (max_iterations : Z)
    (xs : list Z) (v : locals) (g : rng) :
  computers self = [] → 1 ≤ grid_size self →
  ∃ v' g', for_each (restart_body list_of_set self max_iterations) xs (v, g)
           = Ok (v', g').
Proof.
  intros Hc Hgs. revert v g. induction xs as [|x xs IH]; intros v g.
  - by do 2 eexists.
  - cbn [for_each]. rewrite restart_body_unfold.
    destruct (generate_random_wifi_grid_Ok self g Hgs) as (w & g1 & ->).
    cbn [mbind result_bind].
    destruct (hill_climbing_total self w max_iterations) as [r ->]; [by right|].
    cbn [mbind result_bind mret result_ret]. apply IH.
Qed.

(** The loop, run at least once, leaves a best solution and a best score
    taken from a recorded climb. *)
Lemma restart_loop_best (self : optimizer) (num_restarts max_iterations : Z)
    (g g' : rng) (v : locals) :
  1 ≤ num_restarts →
  for_each (restart_body list_of_set self max_iterations)
           (seqZ 0 num_restarts) (initial_locals, g) = Ok (v, g') →
  ∃ r, r ∈ all_results v
       ∧ is_run list_of_set self max_iterations r
       ∧ best_solution v = Some (wifi_positions r)
       ∧ best_score v = Int (score r).
Proof.
  intros Hn Hloop.
  replace num_restarts with (Z.of_nat (Z.to_nat num_restarts)) in Hloop by lia.
  apply restart_loop_inv in Hloop as (Hlen & Hbest & Hruns);
    [|done|done|constructor].
  simpl in Hlen. unfold tracks_best in Hbest.
  destruct (all_results v) as [|a l] eqn:Hv; [simpl in Hlen; lia|].
  destruct Hbest as (k & r & (Hk & _) & Hbs & Hsol & _).
  apply list_elem_of_lookup_2 in Hk. exists r. split_and!; try done.
  rewrite Forall_forall in Hruns. by apply Hruns.
Qed.

End RestartEdges.

(** X17. Without computers the controller, run verbosely, never returns its
    result: every climb succeeds with score 0, but the report divides the
    total distance by the number of computers and [ZeroDivisionError]
    reaches the caller.  Run quietly it returns, with best score 0. *)
Theorem X17_verbose_without_computers (list_of_set : list pos → list pos)
    (self : optimizer) (num_restarts max_iterations : Z) (g : rng) :
  computers self = [] → 1 ≤ grid_size self → 1 ≤ num_restarts →
  hill_climbing_with_random_restart list_of_set self num_restarts
    max_iterations true g = Raise ZeroDivisionError
  ∧ ∃ res g',
      hill_climbing_with_random_restart list_of_set self num_restarts
        max_iterations false g = Ok (res, g')
      ∧ Results.best_score res = Int 0.
Proof.
  intros Hc Hgs Hn.
  destruct (restart_loop_no_computers_Ok list_of_set self max_iterations
              (seqZ 0 num_restarts) initial_locals g Hc Hgs) as (v & g' & Hloop).
  destruct (restart_loop_best _ _ _ _ _ _ _ Hn Hloop)
    as (r & Hr & (w & g0 & g1 & _ & Hrun) & Hsol & Hbs).
  assert (score r = 0) as Hz.
  { apply hill_climbing_result_shape in Hrun as [_ Hobj].
    rewrite calculate_objective_no_computers in Hobj by done. congruence. }
  assert (∃ worst, py_min (score <$> all_results v) = Ok worst) as [worst Hw].
  { apply py_min_Ok. intros Hnil. apply fmap_nil_inv in Hnil.
    rewrite Hnil in Hr. by apply elem_of_nil in Hr. }
  unfold hill_climbing_with_random_restart. rewrite Hloop.
  cbn [mbind result_bind]. rewrite Hw. cbn [mbind result_bind].
  destruct (Z.eqb_spec num_restarts 0) as [|_]; [lia|].
  cbn [mbind result_bind mret result_ret]. split.
  - unfold print_analysis. cbn [Results.total_restarts Results.best_wifi_positions].
    destruct (Z.eqb_spec num_restarts 0) as [|_]; [lia|].
    cbn [mbind result_bind mret result_ret].
    rewrite Hsol. unfold calculate_average_distance. by rewrite Hc.
  - do 2 eexists. split; [done|]. simpl. by rewrite Hbs, Hz.
Qed.

Lemma X17_verbose_without_computers_witness :
  let self := {| grid_size := 3; num_computers := 0; num_wifi := 2;
                 computers := [] |} in
  computers self = [] ∧ 1 ≤ grid_size self ∧ 1 ≤ 2
  ∧ hill_climbing_with_random_restart remove_dups self 2 500 true
      counting_tape = Raise ZeroDivisionError.
Proof.
  intros self. split; [reflexivity|]. split; [simpl; lia|]. split; [lia|].
  exact (proj1 (X17_verbose_without_computers remove_dups self 2 500
                  counting_tape eq_refl ltac:(simpl; lia) ltac:(lia))).
Defined.

(** X18. With a single restart the controller returns that one climb: the
    best placement and score, the worst score and the total of improvements
    are those of the climb from the one generated start, found at restart
    number 1, with one distinct score. *)
Theorem X18_single_restart (list_of_set : list pos → list pos)
    (self : optimizer) (max_iterations : Z) (verbose : bool) (g g' : rng)
    (res : Results.t) :
  hill_climbing_with_random_restart list_of_set self 1 max_iterations
    verbose g = Ok (res, g') →
  ∃ w r,
    generate_random_wifi list_of_set self g = Ok (w, g')
    ∧ hill_climbing self w max_iterations = Ok r
    ∧ res = {| Results.best_wifi_positions := Some (wifi_positions r);
               Results.best_score := Int (score r);
               Results.best_restart_num := 1;
               Results.total_restarts := 1;
               Results.all_results := [r];
               Results.statistics :=
                 {| Statistics.best_score := Int (score r);
                    Statistics.worst_score := score r;
                    Statistics.unique_solutions := 1;
                    Statistics.total_improvements := improvements r |} |}.
Proof.
  intros (v & worst & Hloop & Hworst & ->)%hill_climbing_with_random_restart_Ok_inv.
  rewrite seqZ_cons, seqZ_nil in Hloop by lia. cbn [for_each] in Hloop.
  rewrite restart_body_unfold in Hloop.
  destruct (generate_random_wifi list_of_set self g) as [[w g1]| |] eqn:Hw;
    simpl in Hloop; [|done..].
  destruct (hill_climbing self w max_iterations) as [r| |] eqn:Hr;
    simpl in Hloop; [|done..].
  injection Hloop as <- <-. simpl in Hworst. injection Hworst as <-.
  exists w, r. split_and!; [done..|]. simpl. do 2 f_equal.
Qed.

Lemma X18_single_restart_witness :
  ∃ res g' w r,
    hill_climbing_with_random_restart remove_dups c1_self 1 500 true
      counting_tape = Ok (res, g')
    ∧ generate_random_wifi remove_dups c1_self counting_tape = Ok (w, g')
    ∧ hill_climbing c1_self w 500 = Ok r
    ∧ Results.all_results res = [r]
    ∧ Results.best_restart_num res = 1.
Proof.
  assert (∃ res g',
            hill_climbing_with_random_restart remove_dups c1_self 1 500 true
              counting_tape = Ok (res, g')) as (res & g' & Hrun).
  { eexists _, _. vm_compute. reflexivity. }
  destruct (X18_single_restart remove_dups c1_self 500 true counting_tape g'
              res Hrun) as (w & r & Hw & Hr & Hres).
  exists res, g', w, r. split; [exact Hrun|]. split; [exact Hw|].
  split; [exact Hr|]. rewrite Hres. split; reflexivity.
Defined.

(** X22. A configuration that makes the first restart fail makes the
    controller fail with it: a grid of size 0 or less with a Wi-Fi to draw
    raises [ValueError] from the draw, and no Wi-Fi to draw with a computer
    to serve raises [ValueError] from the objective of the empty placement. *)
Theorem X22_first_restart_fails (list_of_set : list pos → list pos)
    (self : optimizer) (num_restarts max_iterations : Z) (verbose : bool)
    (g : rng) :
  (∀ l, list_of_set l ≡ₚ remove_dups l) →
  1 ≤ num_restarts →
  (grid_size self ≤ 0 ∧ 1 ≤ num_wifi self)
  ∨ (num_wifi self ≤ 0 ∧ computers self ≠ []) →
  hill_climbing_with_random_restart list_of_set self num_restarts
    max_iterations verbose g = Raise ValueError.
Proof.
  intros Hperm Hn Hbad. unfold hill_climbing_with_random_restart.
  rewrite seqZ_cons by lia. cbn [for_each]. rewrite restart_body_unfold.
  destruct Hbad as [[Hgs Hnw]|[Hnw Hc]].
  - by rewrite generate_random_wifi_empty_grid.
  - rewrite generate_random_wifi_none by done. cbn [mbind result_bind].
    by rewrite hill_climbing_empty.
Qed.

Lemma X22_first_restart_fails_witness :
  (∀ l : list pos, remove_dups l ≡ₚ remove_dups l)
  ∧ 1 ≤ 10
  ∧ ((grid_size c2_self ≤ 0 ∧ 1 ≤ num_wifi c2_self)
     ∨ (num_wifi c2_self ≤ 0 ∧ computers c2_self ≠ []))
  ∧ hill_climbing_with_random_restart remove_dups c2_self 10 500 true
      counting_tape = Raise ValueError.
Proof.
  assert ((grid_size c2_self ≤ 0 ∧ 1 ≤ num_wifi c2_self)
          ∨ (num_wifi c2_self ≤ 0 ∧ computers c2_self ≠ [])) as Hbad.
  { right. split; [simpl; lia|discriminate]. }
  split; [reflexivity|]. split; [lia|]. split; [exact Hbad|].
  exact (X22_first_restart_fails remove_dups c2_self 10 500 true counting_tape
           (λ l, reflexivity _) ltac:(lia) Hbad).
Defined.

(** ** Random placements, continued *)

Lemma randint_tape (a b : Z) (g g' : rng) (v : Z) :
  randint a b g = Ok (v, g') → ∀ k, g' k = g (S k).
Proof. unfold randint. destruct (b <? a); [done|]. by intros [= _ <-]. Qed.

Lemma random_positions_tape (gs : Z) (n : nat) (g g' : rng) (ps : list pos) :
  random_positions gs n g = Ok (ps, g') → ∀ k, g' k = g (2 * n + k)%nat.
Proof.
  revert g ps g'. induction n as [|n IH]; intros g ps g'; simpl.
  - by intros [= _ <-].
  - destruct (randint 0 (gs - 1) g) as [[x g1]| |] eqn:Hx; simpl; [|done..].
    destruct (randint 0 (gs - 1) g1) as [[y g2]| |] eqn:Hy; simpl; [|done..].
    destruct (random_positions gs n g2) as [[qs g3]| |] eqn:Hq; simpl; [|done..].
    intros [= _ <-] k.
    rewrite (IH _ _ _ Hq k), (randint_tape _ _ _ _ _ Hy (2 * n + k)%nat),
      (randint_tape _ _ _ _ _ Hx (S (2 * n + k))).
    f_equal. lia.
Qed.

(** X19. The generator returns at most [num_wifi] positions (fewer when
    draws coincide), at least one when there is a Wi-Fi to place, and leaves
    the random tape advanced by exactly two draws per requested Wi-Fi. *)
Theorem X19_generator_size_and_draws (list_of_set : list pos → list pos)
    (self : optimizer) (g g' : rng) (l : list pos) :
  (∀ l, list_of_set l ≡ₚ remove_dups l) →
  generate_random_wifi list_of_set self g = Ok (l, g') →
  (length l ≤ Z.to_nat (num_wifi self))%nat
  ∧ (1 ≤ num_wifi self → l ≠ [])
  ∧ ∀ k, g' k = g (2 * Z.to_nat (num_wifi self) + k)%nat.
Proof.
  intros Hperm. unfold generate_random_wifi.
  destruct (random_positions _ _ _) as [[ps g1]| |] eqn:Hps; simpl; [|done..].
  intros [= <- <-].
  pose proof (random_positions_in_range _ _ _ _ _ Hps) as [Hlen _].
  split_and!.
  - rewrite (Permutation_length (Hperm ps)), <-Hlen.
    apply length_remove_dups_le.
  - intros Hnw Hnil. destruct ps as [|p ps]; [simpl in Hlen; lia|].
    pose proof (Hperm (p :: ps)) as Hp. rewrite Hnil in Hp.
    apply Permutation_nil_l in Hp.
    assert (p ∈ remove_dups (p :: ps)) as Hin by (apply elem_of_remove_dups; left).
    rewrite <-Hp in Hin. by apply elem_of_nil in Hin.
  - intros k. exact (random_positions_tape _ _ _ _ _ Hps k).
Qed.

Lemma X19_generator_size_and_draws_witness :
  let self := {| grid_size := 1; num_computers := 0; num_wifi := 3;
                 computers := [] |} in
  (∀ l : list pos, remove_dups l ≡ₚ remove_dups l)
  ∧ ∃ g', generate_random_wifi remove_dups self counting_tape = Ok ([(0, 0)], g')
          ∧ (length [(0, 0)] ≤ Z.to_nat (num_wifi self))%nat
          ∧ ∀ k, g' k = counting_tape (2 * Z.to_nat (num_wifi self) + k)%nat.
Proof.
  intros self. split; [reflexivity|].
  assert (∃ g', generate_random_wifi remove_dups self counting_tape
                = Ok ([(0, 0)], g')) as [g' Hgen].
  { eexists. reflexivity. }
  exists g'. split; [exact Hgen|].
  pose proof (X19_generator_size_and_draws remove_dups self counting_tape g'
                [(0, 0)] (λ l, reflexivity _) Hgen) as (H1 & _ & H3).
  split; [exact H1|exact H3].
Defined.

(** ** The nearest Wi-Fi of the plot *)

Lemma nearest_step_fold (c : pos) (pre xs : list pos) (k : nat) (w : pos) :
  first_max (λ w', - manhattan_distance c w') pre k w →
  ∃ k' w',
    foldl (nearest_step c) (Dist (manhattan_distance c w), Some w) xs
    = (Dist (manhattan_distance c w'), Some w')
    ∧ first_max (λ w', - manhattan_distance c w') (pre ++ xs) k' w'.
Proof.
  revert pre k w. induction xs as [|x xs IH]; intros pre k w Hfm.
  - exists k, w. by rewrite app_nil_r.
  - replace (pre ++ x :: xs) with ((pre ++ [x]) ++ xs) by by rewrite <-app_assoc.
    cbn [foldl]. unfold nearest_step at 2. cbn [fst below].
    destruct (Z.ltb_spec (manhattan_distance c x) (manhattan_distance c w))
      as [Hlt|Hge].
    + apply (IH _ (length pre)). apply first_max_snoc_new. intros z Hz.
      destruct Hfm as (_ & Hmax & _). specialize (Hmax z Hz). simpl in Hmax. lia.
    + apply (IH _ k). apply first_max_snoc_keep; [done|]. lia.
Qed.

(** X20. The Wi-Fi the plot joins a computer to is the first, in placement
    order, of the Wi-Fi nearest to it, at the distance the objective counts
    for that computer; there is none exactly when the placement is empty. *)
Theorem X20_nearest_wifi_first_nearest (c : pos) (wifi : list pos) :
  (nearest_wifi c wifi = None ↔ wifi = [])
  ∧ ∀ w, nearest_wifi c wifi = Some w →
         py_min (manhattan_distance c <$> wifi) = Ok (manhattan_distance c w)
         ∧ ∃ k, wifi !! k = Some w
                ∧ (∀ w', w' ∈ wifi →
                         manhattan_distance c w ≤ manhattan_distance c w')
                ∧ (∀ j w', (j < k)%nat → wifi !! j = Some w' →
                           manhattan_distance c w < manhattan_distance c w').
Proof.
  destruct wifi as [|x xs].
  { split; [done|]. intros w. by unfold nearest_wifi. }
  assert (first_max (λ w', - manhattan_distance c w') [x] 0 x) as Hfm.
  { split_and!; [done| |intros j y Hj; lia].
    by intros y ->%list_elem_of_singleton. }
  destruct (nearest_step_fold c [x] xs 0 x Hfm) as (k & w & Hfold & Hk & Hmax & Hlt).
  assert (nearest_wifi c (x :: xs) = Some w) as Hnw.
  { unfold nearest_wifi. cbn [foldl]. unfold nearest_step at 2. cbn [fst below].
    by rewrite Hfold. }
  rewrite Hnw. split; [done|]. intros w' [= <-].
  assert (∀ w', w' ∈ x :: xs → manhattan_distance c w ≤ manhattan_distance c w')
    as Hmin.
  { intros w' Hw'. specialize (Hmax w' Hw'). simpl in Hmax. lia. }
  split.
  - destruct (py_min_Ok (manhattan_distance c <$> x :: xs)) as [m Hm]; [done|].
    rewrite Hm. f_equal. apply py_min_spec in Hm as [Hin Hall].
    apply list_elem_of_fmap in Hin as (w' & -> & Hw').
    rewrite Forall_forall in Hall. apply Z.le_antisymm.
    + apply Hall, list_elem_of_fmap. exists w. split; [done|].
      by eapply list_elem_of_lookup_2.
    + by apply Hmin.
  - exists k. split_and!; [done..|]. intros j w' Hj Hw'.
    specialize (Hlt j w' Hj Hw'). simpl in Hlt. lia.
Qed.

(** The Wi-Fi found is one of the placement, at the distance [nearest]. *)
Lemma nearest_wifi_cases (c : pos) (wifi : list pos) :
  (wifi = [] ∧ nearest_wifi c wifi = None)
  ∨ (∃ w, nearest_wifi c wifi = Some w ∧ w ∈ wifi
          ∧ manhattan_distance c w = nearest wifi c).
Proof.
  destruct wifi as [|x xs]; [by left|right].
  assert (first_max (λ w', - manhattan_distance c w') [x] 0 x) as Hfm.
  { split_and!; [done| |intros j y Hj; lia].
    by intros y ->%list_elem_of_singleton. }
  destruct (nearest_step_fold c [x] xs 0 x Hfm) as (k & w & Hfold & Hk & Hmax & _).
  exists w. split_and!.
  - unfold nearest_wifi. cbn [foldl]. unfold nearest_step at 2. cbn [fst below].
    by rewrite Hfold.
  - by eapply list_elem_of_lookup_2.
  - destruct (nearest_spec (x :: xs) c) as [(w' & Hw' & ->) Hle]; [done|].
    apply Z.le_antisymm.
    + specialize (Hmax w' Hw'). simpl in Hmax. lia.
    + apply Hle. by eapply list_elem_of_lookup_2.
Qed.

(** X21. The plot joins every computer to a Wi-Fi as soon as there is one,
    and the lengths of the segments add up to the total distance the
    objective negates; on the empty placement it draws nothing where the
    objective raises. *)
Theorem X21_connections_total (self : optimizer) (wifi : list pos) :
  (wifi = [] → connections self wifi = [])
  ∧ (wifi ≠ [] →
     (connections self wifi).*1 = computers self
     ∧ Forall (λ cw, cw.2 ∈ wifi) (connections self wifi)
     ∧ calculate_objective self wifi
       = Ok (- py_sum ((λ cw, manhattan_distance cw.1 cw.2)
                       <$> connections self wifi))).
Proof.
  unfold connections. split.
  - intros ->. induction (computers self) as [|c cs IH]; [done|]. simpl. apply IH.
  - intros Hne. rewrite calculate_objective_nonempty by done.
    induction (computers self) as [|c cs (IH1 & IH2 & IH3)]; [done|].
    destruct (nearest_wifi_cases c wifi) as [[? _]|(w & Hw & Hin & Hd)]; [done|].
    cbn [omap list_omap]. rewrite Hw.
    cbn [mbind option_bind fmap list_fmap fst snd]. split_and!.
    + f_equal. apply IH1.
    + constructor; [done|apply IH2].
    + injection IH3 as IH3. do 2 f_equal. rewrite !py_sum_cons, Hd. lia.
Qed.

(** ** The average distance of the report *)


(** ** Larger caps *)

(** X24. Raising the cap never hurts: under a larger cap the climb from the
    same start takes at least as many steps and ends with a score at least
    as high. *)
Theorem X24_cap_monotone (self : optimizer) (w : list pos) (a c : Z)
    (d1 d2 : Dict) :
  a ≤ c →
  hill_climbing self w a = Ok d1 →
  hill_climbing self w c = Ok d2 →
  score d1 ≤ score d2 ∧ iterations d1 ≤ iterations d2.
Proof.
  intros Hac Hrun1 Hrun2.
  pose proof (hill_climbing_result_shape _ _ _ _ Hrun1) as [_ Hobj1].
  destruct (hill_climbing_Ok_inv _ _ _ _ Hrun1) as (s & Hs & Hloop1).
  destruct (hill_climbing_loop_fuel self c (S (Z.to_nat (c - iterations d1))) d1)
    as [d Hd]; [by eapply calculate_objective_Ok_evaluable|lia|].
  pose proof (hill_climbing_loop_extend _ _ _ _ _ _ _ _ Hac Hloop1 Hd) as Hext.
  apply (hill_climbing_loop_result _ _ _ _ _ _ Hs) in Hext.
  rewrite Hrun2 in Hext. injection Hext as ->. revert Hd.
  apply (hill_climbing_loop_invariant self c
           (λ st, score d1 ≤ score st ∧ iterations d1 ≤ iterations st));
    [|done].
  intros st st' [Hsc Hit] [_ Hb].
  apply hill_climbing_body_Continue in Hb as (_ & _ & _ & _ & Hlt & Hi & _). lia.
Qed.

Lemma X24_cap_monotone_witness :
  let d1 := {| wifi_positions := [(1, 2)]; score := -4;
               iterations := 1; improvements := 1 |} in
  let d2 := {| wifi_positions := [(0, 2)]; score := -2;
               iterations := 2; improvements := 2 |} in
  1 ≤ 500
  ∧ hill_climbing c1_self [(2, 2)] 1 = Ok d1
  ∧ hill_climbing c1_self [(2, 2)] 500 = Ok d2
  ∧ score d1 ≤ score d2 ∧ iterations d1 ≤ iterations d2.
Proof.
  intros d1 d2.
  assert (hill_climbing c1_self [(2, 2)] 1 = Ok d1) as H1
    by (vm_compute; reflexivity).
  assert (hill_climbing c1_self [(2, 2)] 500 = Ok d2) as H2
    by (vm_compute; reflexivity).
  split; [lia|]. split; [exact H1|]. split; [exact H2|].
  exact (X24_cap_monotone c1_self [(2, 2)] 1 500 d1 d2 ltac:(lia) H1 H2).
Defined.
